(** * sports-predictions: the NBA data feed and analyzer

    A shallow embedding of [src/nba/nba_analyzer.py] (class [NBAAnalyzer]) and
    of the storing half of [src/nba/nba_datafeed.py] (class [NBADataFeed]),
    with the properties of the feature pipeline stated over it.

    Conventions of the embedding.
    - A pandas DataFrame is a list of rows; a row is a record whose
      identifying columns are named fields and whose numeric statistics are a
      vector [list Qc] aligned with a list of column names.
    - Numbers are exact rationals ([Qc]): float64 rounding is not modelled.
    - A date is the day number of its midnight timestamp ([Z]); parsing by
      [pd.to_datetime] is not modelled.
    - [sort_values] is a stable insertion sort; the examples use distinct
      keys, where every sorting algorithm agrees.
    - The order in which Python iterates over a set is a parameter of
      [update_player_df]; the statements hold for every such order.
    - A missing value (NaN, NaT) is [None].  [pd.merge] matches rows whose
      join key is missing on both sides with each other, and so does the
      model.
    - The CSV files are a finite map from (directory, file name) to table;
      writing a table and reading it back is the identity. *)

From Stdlib Require Import ZArith QArith Qcanon Qround List Bool Lia.
From Stdlib Require Import String Ascii Permutation Sorted.
From Stdlib Require OrderedTypeEx.
From stdpp Require Import gmap strings.
Import ListNotations.

Local Open Scope string_scope.
Local Open Scope list_scope.

(** ** Generic table operations *)

Section TableOps.
Context {A : Type}.

(** [Series.unique()] / [drop_duplicates()]: first occurrences, in order. *)
Fixpoint unique_by (eqb : A -> A -> bool) (l : list A) : list A :=
  match l with
  | [] => []
  | x :: t => x :: List.filter (fun y => negb (eqb x y)) (unique_by eqb t)
  end.

(** Stable insertion of [x] in front of the first element not below it. *)
Fixpoint insert_by (le : A -> A -> bool) (x : A) (l : list A) : list A :=
  match l with
  | [] => [x]
  | y :: t => if le x y then x :: l else y :: insert_by le x t
  end.

(** [sort_values]: rows ordered by [le], ties in input order. *)
Fixpoint sort_by (le : A -> A -> bool) (l : list A) : list A :=
  match l with
  | [] => []
  | x :: t => insert_by le x (sort_by le t)
  end.
End TableOps.

(** ** Strings *)

(** [s[-4:]]: the last four characters (all of [s] when it is shorter). *)
Definition last4 (s : string) : string :=
  substring (String.length s - 4) 4 s.

(** ['@' in x]. *)
Fixpoint contains_at (x : string) : bool :=
  match x with
  | EmptyString => false
  | String c t => if Ascii.eqb c "@"%char then true else contains_at t
  end.

(** ** Numeric vectors (one pandas row restricted to the statistics) *)

Definition Zc (z : Z) : Qc := Q2Qc (inject_Z z).

Fixpoint vadd (a b : list Qc) : list Qc :=
  match a, b with
  | x :: a', y :: b' => (x + y)%Qc :: vadd a' b'
  | _, _ => []
  end.

Definition vdiv (a : list Qc) (n : Z) : list Qc :=
  map (fun x => (x / Zc n)%Qc) a.

(** ** Rows *)

Module Raw.
(** A row of a stored team or player file.  [ENTITY_ID] is the column
    TEAM_ID of a team file and PLAYER_ID of a player file; [box] holds the
    numeric box-score columns that follow WL, in column order. *)
Record row := {
  SEASON_ID : string;
  TEAM_ABBREVIATION : string;
  ENTITY_ID : string;
  GAME_ID : string;
  GAME_DATE : Z;
  MATCHUP : string;
  WL : string;
  box : list Qc
}.
End Raw.

Module Df.
(** The frame after lines 23-28 of [get_game_averages_df]. *)
Record row := {
  raw : Raw.row;
  SEASON_YEAR : string;
  WL : Z;
  HOME_GAME : Z;
  REST_DAYS : Z
}.
End Df.

Module Avg.
(** A row of the frame returned by [get_game_averages_df]: the kept
    identifier columns, the raw statistics [WL], [box], [REST_DAYS] and
    their season averages [avgs] (SEASON_AVG_WL, SEASON_AVG_<box>...,
    SEASON_AVG_REST_DAYS). *)
Record row := {
  TEAM_ABBREVIATION : string;
  ENTITY_ID : string;
  GAME_ID : string;
  HOME_GAME : Z;
  WL : Z;
  box : list Qc;
  REST_DAYS : Z;
  avgs : list Qc
}.
End Avg.

(** ** [NBAAnalyzer.get_game_averages_df] *)

(** [df["WL"].apply(lambda x: 1 if x=="W" else 0)] *)
Definition wl_int (x : string) : Z := if String.eqb x "W" then 1 else 0.

(** [df["MATCHUP"].apply(lambda x: 0 if '@' in x else 1)] *)
Definition home_game (x : string) : Z := if contains_at x then 0 else 1.

(** [df.sort_values("GAME_DATE")] *)
Definition sort_values_GAME_DATE (df : list Raw.row) : list Raw.row :=
  sort_by (fun a b => Z.leb (Raw.GAME_DATE a) (Raw.GAME_DATE b)) df.

(** [df["GAME_DATE"].diff().dt.days]: no value for the first row. *)
Fixpoint diff_days (prev : option Z) (dates : list Z) : list (option Z) :=
  match dates with
  | [] => []
  | d :: t => option_map (fun p => d - p)%Z prev :: diff_days (Some d) t
  end.

(** [.fillna(0)] *)
Definition fillna0 (o : option Z) : Z :=
  match o with Some d => d | None => 0%Z end.

Definition derive (r : Raw.row) (rest : option Z) : Df.row :=
  {| Df.raw := r;
     Df.SEASON_YEAR := last4 (Raw.SEASON_ID r);
     Df.WL := wl_int (Raw.WL r);
     Df.HOME_GAME := home_game (Raw.MATCHUP r);
     Df.REST_DAYS := fillna0 rest |}.

(** Lines 23-28: derived columns, date sort, rest days. *)
Definition prepare (df : list Raw.row) : list Df.row :=
  let sorted := sort_values_GAME_DATE df in
  map (fun p => derive (fst p) (snd p))
      (combine sorted (diff_days None (map Raw.GAME_DATE sorted))).

(** [row[stats_cols]]: WL, the box-score columns, REST_DAYS. *)
Definition stats_of (d : Df.row) : list Qc :=
  Zc (Df.WL d) :: Raw.box (Df.raw d) ++ [Zc (Df.REST_DAYS d)].

(** The inner loop, lines 46-50: [cum] is [cumulative_row], [played] is
    [games_played] before the iteration. *)
Fixpoint season_loop (cum : list Qc) (played : Z) (rest : list (list Qc))
  : list (list Qc) :=
  match rest with
  | [] => []
  | row :: t =>
      let played' := (played + 1)%Z in
      let cum' := vadd cum row in
      vdiv cum' played' :: season_loop cum' played' t
  end.

(** Lines 43-50 for one season.  [iloc[0]] of an empty frame raises; a
    season taken from [unique()] always has a row. *)
Definition season_rows (season_games : list (list Qc)) : list (list Qc) :=
  match season_games with
  | [] => []
  | first :: t => first :: season_loop first 1 t
  end.

(** [df[df["SEASON_YEAR"]==season]] *)
Definition season_games (season : string) (df : list Df.row) : list Df.row :=
  List.filter (fun d => String.eqb (Df.SEASON_YEAR d) season) df.

(** Lines 37-52: the list [rows], season after season in the order in which
    the seasons first appear in the date-sorted frame. *)
Definition average_rows (df : list Df.row) : list (list Qc) :=
  flat_map (fun season => season_rows (map stats_of (season_games season df)))
           (unique_by String.eqb (map Df.SEASON_YEAR df)).

Definition attach (d : Df.row) (avg : list Qc) : Avg.row :=
  {| Avg.TEAM_ABBREVIATION := Raw.TEAM_ABBREVIATION (Df.raw d);
     Avg.ENTITY_ID := Raw.ENTITY_ID (Df.raw d);
     Avg.GAME_ID := Raw.GAME_ID (Df.raw d);
     Avg.HOME_GAME := Df.HOME_GAME d;
     Avg.WL := Df.WL d;
     Avg.box := Raw.box (Df.raw d);
     Avg.REST_DAYS := Df.REST_DAYS d;
     Avg.avgs := avg |}.

(** Lines 54-69: [stats_df.index = df.index] gives the k-th element of [rows]
    the index label of the k-th row of the sorted frame, and the merge on
    that label puts them side by side.  The flags [team] and [player] only
    select the identifier columns that are kept ([keep_cols] below); the
    row record has a field for each of them. *)
Definition get_game_averages_df (df : list Raw.row) : list Avg.row :=
  let df := prepare df in
  map (fun p => attach (fst p) (snd p)) (combine df (average_rows df)).

(** *** Column names of [get_game_averages_df] *)

Definition mem (c : string) (l : list string) : bool :=
  existsb (String.eqb c) l.

(** [df[c] = ...]: a new column goes last, an existing one keeps its place. *)
Definition set_column (c : string) (cols : list string) : list string :=
  if mem c cols then cols else cols ++ [c].

(** The columns of the frame after lines 23-28, from those of the file. *)
Definition df_columns (cols : list string) : list string :=
  set_column "REST_DAYS"
    (set_column "GAME_DATE"
       (set_column "HOME_GAME"
          (set_column "WL" (set_column "SEASON_YEAR" cols)))).

Definition not_averaged : list string :=
  [ "SEASON_ID"; "TEAM_ID"; "PLAYER_ID"; "TEAM_ABBREVIATION"; "TEAM_NAME";
    "GAME_ID"; "SEASON_YEAR"; "HOME_GAME"; "GAME_DATE"; "MATCHUP" ].

Definition stats_cols (cols : list string) : list string :=
  List.filter (fun col => negb (mem col not_averaged)) (df_columns cols).

Definition avg_columns (cols : list string) : list string :=
  map (String.append "SEASON_AVG_") (stats_cols cols).

Definition keep_cols (team player : bool) (cols : list string) : list string :=
  (if team then ["TEAM_ABBREVIATION"; "TEAM_ID"] else []) ++
  (if player then ["PLAYER_ID"] else []) ++
  ["GAME_ID"; "HOME_GAME"] ++ stats_cols cols ++ avg_columns cols.

(** The columns of a stored player file (nba_datafeed.py, lines 153-157). *)
Definition player_file_columns : list string :=
  [ "SEASON_ID"; "PLAYER_ID"; "GAME_ID"; "GAME_DATE"; "MATCHUP"; "WL";
    "FGM"; "FGA"; "FG3M"; "FG3A"; "FTM"; "FTA"; "OREB"; "DREB"; "AST";
    "STL"; "BLK"; "TOV"; "PF"; "PTS"; "PLUS_MINUS" ].

(** ** [NBAAnalyzer.update_player_df] *)

Definition Qc_leb (x y : Qc) : bool := Qle_bool x y.
Definition Qc_eqb (x y : Qc) : bool := Qeq_bool x y.

Fixpoint vec_eqb (a b : list Qc) : bool :=
  match a, b with
  | [], [] => true
  | x :: a', y :: b' => Qc_eqb x y && vec_eqb a' b'
  | _, _ => false
  end.

Module Ledger.
(** A row of the analyzed-games file: the identifying columns and the
    distribution columns <col>_mean, _min, _q25, _q50, _q75, _max. *)
Record row := {
  GAME_ID : string;
  HOME_GAME : Z;
  WL : Z;
  dist : list Qc
}.

Definition eqb (a b : row) : bool :=
  String.eqb (GAME_ID a) (GAME_ID b) && Z.eqb (HOME_GAME a) (HOME_GAME b)
  && Z.eqb (WL a) (WL b) && vec_eqb (dist a) (dist b).
End Ledger.

(** The player frame [self.player_df]: its column names and its rows. *)
Record PlayerFrame := {
  pf_columns : list string;
  pf_rows : list Avg.row
}.

Definition exclude_cols : list string :=
  ["PLAYER_ID"; "GAME_ID"; "HOME_GAME"; "WL"].

(** [stats_cols] of [update_player_df], line 109. *)
Definition dist_stats_cols (columns : list string) : list string :=
  List.filter (fun col => negb (mem col exclude_cols)) columns.

Definition suffixes : list string :=
  ["_mean"; "_min"; "_q25"; "_q50"; "_q75"; "_max"].

(** [dist_cols], lines 111-114. *)
Definition dist_cols (columns : list string) : list string :=
  ["GAME_ID"; "HOME_GAME"; "WL"] ++
  flat_map (fun col => map (String.append col) suffixes)
           (dist_stats_cols columns).

(** [row[stats_cols]] for a row of the player frame: every column but
    PLAYER_ID, GAME_ID, HOME_GAME and WL, that is the raw box-score columns,
    REST_DAYS and all the SEASON_AVG_ columns. *)
Definition player_stats (r : Avg.row) : list Qc :=
  Avg.box r ++ [Zc (Avg.REST_DAYS r)] ++ Avg.avgs r.

(** [team_df[col]] for the j-th statistics column. *)
Definition column (j : nat) (team_df : list Avg.row) : list Qc :=
  map (fun r => nth j (player_stats r) (Zc 0)) team_df.

Definition Qc_sum (xs : list Qc) : Qc := fold_right Qcplus (Zc 0) xs.

(** [Series.mean()] *)
Definition mean (xs : list Qc) : Qc :=
  (Qc_sum xs / Zc (Z.of_nat (length xs)))%Qc.

Definition Qc_min (a b : Qc) : Qc := if Qc_leb a b then a else b.
Definition Qc_max (a b : Qc) : Qc := if Qc_leb a b then b else a.

(** [Series.min()], [Series.max()]; of no value (NaN) on an empty column,
    which the model reads as 0: an empty group has no row to carry it. *)
Definition minimum (xs : list Qc) : Qc :=
  match xs with [] => Zc 0 | x :: t => fold_left Qc_min t x end.
Definition maximum (xs : list Qc) : Qc :=
  match xs with [] => Zc 0 | x :: t => fold_left Qc_max t x end.

(** [Series.quantile(q)], linear interpolation between the two order
    statistics around the virtual index [q * (n - 1)]. *)
Definition quantile (q : Qc) (xs : list Qc) : Qc :=
  let sorted := sort_by Qc_leb xs in
  let virtual := (q * Zc (Z.of_nat (length xs) - 1))%Qc in
  let lo := Qfloor virtual in
  let gamma := (virtual - Zc lo)%Qc in
  let prev := nth (Z.to_nat lo) sorted (Zc 0) in
  let next := nth (Nat.min (Z.to_nat lo + 1) (length xs - 1)) sorted (Zc 0) in
  (prev + (next - prev) * gamma)%Qc.

(** Lines 136-141 for one column, in the order of [suffixes]. *)
Definition describe (xs : list Qc) : list Qc :=
  [ mean xs; minimum xs;
    quantile (Q2Qc (1 # 4)) xs; quantile (Q2Qc (1 # 2)) xs;
    quantile (Q2Qc (3 # 4)) xs; maximum xs ].

(** The distribution columns of one side, lines 135-141. *)
Definition dist_values (ncols : nat) (team_df : list Avg.row) : list Qc :=
  flat_map (fun j => describe (column j team_df)) (seq 0 ncols).

(** Lines 135-143 for one side: every row of the group gets the same
    distribution values; [team_df[dist_cols].drop_duplicates()]. *)
Definition team_rows (ncols : nat) (team_df : list Avg.row) : list Ledger.row :=
  unique_by Ledger.eqb
    (map (fun r => {| Ledger.GAME_ID := Avg.GAME_ID r;
                      Ledger.HOME_GAME := Avg.HOME_GAME r;
                      Ledger.WL := Avg.WL r;
                      Ledger.dist := dist_values ncols team_df |})
         team_df).

(** Lines 129-143 for one game. *)
Definition game_rows (player_df : PlayerFrame) (game_id : string)
  : list Ledger.row :=
  let ncols := length (dist_stats_cols (pf_columns player_df)) in
  let game_df :=
    List.filter (fun r => String.eqb (Avg.GAME_ID r) game_id)
                (pf_rows player_df) in
  let df_home := List.filter (fun r => Z.eqb (Avg.HOME_GAME r) 1) game_df in
  let df_away := List.filter (fun r => Z.eqb (Avg.HOME_GAME r) 0) game_df in
  flat_map (team_rows ncols) [df_home; df_away].

(** Lines 122-123: the games of the player frame that the ledger lacks, as
    a duplicate-free list. *)
Definition new_game_ids (player_df : PlayerFrame) (analyzed : list Ledger.row)
  : list string :=
  List.filter (fun g => negb (mem g (map Ledger.GAME_ID analyzed)))
              (unique_by String.eqb (map Avg.GAME_ID (pf_rows player_df))).

(** Lines 117-147.  [set_order] is the order in which Python iterates over
    the set [game_ids]; the language leaves it open.  The result is the
    frame written back to the analyzed-games file. *)
Definition update_player_df (set_order : list string -> list string)
  (player_df : PlayerFrame) (analyzed_games_df : list Ledger.row)
  : list Ledger.row :=
  let game_ids := set_order (new_game_ids player_df analyzed_games_df) in
  analyzed_games_df ++ flat_map (game_rows player_df) game_ids.

(** ** [NBAAnalyzer.clean_and_merge_dfs] *)

Module Feat.
(** A row after the merge of line 154: a team row together with the
    distribution columns of the ledger row it matched. *)
Record row := {
  team : Avg.row;
  dist : list Qc
}.
End Feat.

Module Shifted.
(** A row after lines 157-158: the three columns shifted within the
    team's group, without a value ([None], pandas NaN) on its last row. *)
Record row := {
  cur : Feat.row;
  GAME_ID_JOIN : option string;
  HOME_GAME_CURR : option Z;
  WL_PRED : option Z
}.
End Shifted.

Module Merged.
(** One side of a row of [self.merged_data]: TEAM_ID and GAME_ID are
    dropped. *)
Record side := {
  TEAM_ABBREVIATION : string;
  HOME_GAME : Z;
  WL : Z;
  box : list Qc;
  REST_DAYS : Z;
  avgs : list Qc;
  dist : list Qc;
  HOME_GAME_CURR : option Z
}.

(** A row of [self.merged_data]: the _HOME columns, the _AWAY columns
    and the one label column WL_PRED_HOME. *)
Record row := {
  HOME : side;
  AWAY : side;
  WL_PRED_HOME : option Z
}.
End Merged.

(** [self.team_df.groupby('GAME_ID')['GAME_ID'].transform('count')] *)
Definition game_id_counts (team_df : list Avg.row) : list nat :=
  map (fun r =>
         length (List.filter
                   (fun r' => String.eqb (Avg.GAME_ID r') (Avg.GAME_ID r))
                   team_df))
      team_df.

(** [self.team_df[game_id_counts == 2]] *)
Definition complete_games (team_df : list Avg.row) : list Avg.row :=
  map fst (List.filter (fun p => Nat.eqb (snd p) 2)
                       (combine team_df (game_id_counts team_df))).

Definition same_side (t : Avg.row) (p : Ledger.row) : bool :=
  String.eqb (Avg.GAME_ID t) (Ledger.GAME_ID p)
  && Z.eqb (Avg.HOME_GAME t) (Ledger.HOME_GAME p)
  && Z.eqb (Avg.WL t) (Ledger.WL p).

(** [pd.merge(df, self.player_df, on=["GAME_ID", "HOME_GAME", "WL"])]: an
    inner join, one row for every matching pair. *)
Definition merge_players (df : list Avg.row) (player_df : list Ledger.row)
  : list Feat.row :=
  flat_map (fun t =>
              map (fun p => {| Feat.team := t; Feat.dist := Ledger.dist p |})
                  (List.filter (same_side t) player_df))
           df.

Definition TEAM_ID (r : Feat.row) : string := Avg.ENTITY_ID (Feat.team r).
Definition GAME_ID (r : Feat.row) : string := Avg.GAME_ID (Feat.team r).

(** The order of [df.sort_values(by=["TEAM_ID","GAME_ID"])]: both columns
    are strings. *)
Definition team_game_leb (a b : Feat.row) : bool :=
  match String.compare (TEAM_ID a) (TEAM_ID b) with
  | Lt => true
  | Gt => false
  | Eq => String.leb (GAME_ID a) (GAME_ID b)
  end.

(** The next row of the same TEAM_ID group among the rows that follow. *)
Fixpoint next_in_group (team_id : string) (following : list Feat.row)
  : option Feat.row :=
  match following with
  | [] => None
  | r :: t =>
      if String.eqb (TEAM_ID r) team_id then Some r
      else next_in_group team_id t
  end.

(** [df.groupby("TEAM_ID")[["GAME_ID", "HOME_GAME", "WL"]].shift(-1)],
    stored as GAME_ID_JOIN, HOME_GAME_CURR and WL_PRED. *)
Fixpoint shift_next (df : list Feat.row) : list Shifted.row :=
  match df with
  | [] => []
  | r :: t =>
      let next := next_in_group (TEAM_ID r) t in
      {| Shifted.cur := r;
         Shifted.GAME_ID_JOIN := option_map GAME_ID next;
         Shifted.HOME_GAME_CURR :=
           option_map (fun n => Avg.HOME_GAME (Feat.team n)) next;
         Shifted.WL_PRED := option_map (fun n => Avg.WL (Feat.team n)) next |}
      :: shift_next t
  end.

(** Equality of two join keys.  pandas, unlike SQL, matches rows whose key
    is missing on both sides with each other (documented under
    [DataFrame.merge]). *)
Definition key_eqb (a b : option string) : bool :=
  match a, b with
  | Some x, Some y => String.eqb x y
  | None, None => true
  | _, _ => false
  end.

Definition HOME_GAME (r : Shifted.row) : Z :=
  Avg.HOME_GAME (Feat.team (Shifted.cur r)).

(** Lines 150-165: the frame after the second merge, before any column is
    dropped.  A row is the pair of its _HOME and _AWAY halves. *)
Definition merge_home_away (team_df : list Avg.row)
  (player_df : list Ledger.row) : list (Shifted.row * Shifted.row) :=
  let df := complete_games team_df in
  let df := merge_players df player_df in
  let df := sort_by team_game_leb df in
  let df := shift_next df in
  let home_df := List.filter (fun r => Z.eqb (HOME_GAME r) 1) df in
  let away_df := List.filter (fun r => Z.eqb (HOME_GAME r) 0) df in
  flat_map (fun h =>
              map (pair h)
                  (List.filter
                     (fun a => key_eqb (Shifted.GAME_ID_JOIN h)
                                       (Shifted.GAME_ID_JOIN a))
                     away_df))
           home_df.

Definition side_of (r : Shifted.row) : Merged.side :=
  let t := Feat.team (Shifted.cur r) in
  {| Merged.TEAM_ABBREVIATION := Avg.TEAM_ABBREVIATION t;
     Merged.HOME_GAME := Avg.HOME_GAME t;
     Merged.WL := Avg.WL t;
     Merged.box := Avg.box t;
     Merged.REST_DAYS := Avg.REST_DAYS t;
     Merged.avgs := Avg.avgs t;
     Merged.dist := Feat.dist (Shifted.cur r);
     Merged.HOME_GAME_CURR := Shifted.HOME_GAME_CURR r |}.

(** Lines 167-171: the TEAM_ID and GAME_ID columns (the join key among
    them) and WL_PRED_AWAY are dropped. *)
Definition drop_columns (p : Shifted.row * Shifted.row) : Merged.row :=
  {| Merged.HOME := side_of (fst p);
     Merged.AWAY := side_of (snd p);
     Merged.WL_PRED_HOME := Shifted.WL_PRED (fst p) |}.

(** [self.merged_data] *)
Definition clean_and_merge_dfs (team_df : list Avg.row)
  (player_df : list Ledger.row) : list Merged.row :=
  map drop_columns (merge_home_away team_df player_df).

(** ** [NBADataFeed]: the stored tables *)

Definition row_eqb (a b : Raw.row) : bool :=
  String.eqb (Raw.SEASON_ID a) (Raw.SEASON_ID b)
  && String.eqb (Raw.TEAM_ABBREVIATION a) (Raw.TEAM_ABBREVIATION b)
  && String.eqb (Raw.ENTITY_ID a) (Raw.ENTITY_ID b)
  && String.eqb (Raw.GAME_ID a) (Raw.GAME_ID b)
  && Z.eqb (Raw.GAME_DATE a) (Raw.GAME_DATE b)
  && String.eqb (Raw.MATCHUP a) (Raw.MATCHUP b)
  && String.eqb (Raw.WL a) (Raw.WL b)
  && vec_eqb (Raw.box a) (Raw.box b).

(** The CSV files: (directory, file name) to table.  Both ways in which the
    source builds a path, [f"{dir}/{name}"] and [dir+name], are read as the
    file [name] of directory [dir]; writing and reading back a table is
    the identity. *)
Abbreviation Files := (gmap (string * string) (list Raw.row)).

Record NBADataFeed := {
  player_games_dir : string;
  team_games_dir : string;
  preexisting_games_path : string
}.

(** The remote statistics API: the teams of [teams.get_teams()] and the
    answer of [LeagueGameFinder] for a team, nulls and unused columns
    already removed. *)
Record Remote := {
  get_teams : list string;
  league_game_finder : string -> list Raw.row
}.

Inductive exn := IndexError | ValueError.

Inductive outcome (A : Type) :=
| Returned (a : A)
| Raised (e : exn).
Arguments Returned {A} a.
Arguments Raised {A} e.

(** Code that reads and writes the files and may raise; what was written
    before an exception stays written. *)
Definition IO (A : Type) : Type := Files -> outcome A * Files.

Definition raise {A} (e : exn) : IO A := fun fs => (Raised e, fs).

#[global] Instance IO_ret : MRet IO := fun A a fs => (Returned a, fs).

#[global] Instance IO_bind : MBind IO := fun A B k m fs =>
  match m fs with
  | (Returned a, fs') => k a fs'
  | (Raised e, fs') => (Raised e, fs')
  end.

(** [pd.read_csv(path) if os.path.exists(path)] *)
Definition read_if_exists (path : string * string)
  : IO (option (list Raw.row)) :=
  fun fs => (Returned (fs !! path), fs).

(** [df.to_csv(path, index=False)] *)
Definition to_csv (df : list Raw.row) (path : string * string) : IO unit :=
  fun fs => (Returned tt, <[path := df]> fs).

(** [os.listdir(dir)] with the content of each file listed. *)
Definition listdir (dir : string) : IO (list (string * list Raw.row)) :=
  fun fs =>
    (Returned
       (map (fun kv => (snd (fst kv), snd kv))
            (List.filter (fun kv => String.eqb (fst (fst kv)) dir)
                         (map_to_list fs))),
     fs).

Fixpoint for_each {A} (body : A -> IO unit) (l : list A) : IO unit :=
  match l with
  | [] => mret tt
  | x :: t => body x ;; for_each body t
  end.

(** [get_team_games]: the API answer sorted by GAME_DATE. *)
Definition get_team_games (api : Remote) (team_id : string) : list Raw.row :=
  sort_values_GAME_DATE (league_game_finder api team_id).

(** The body of the loop of [get_all_team_games], lines 53-62. *)
Definition store_team_games (self : NBADataFeed) (api : Remote)
  (team_id : string) : IO unit :=
  let df := get_team_games api team_id in
  match df with
  | [] => raise IndexError                      (* df.iloc[0] *)
  | first :: _ =>
      let path := (player_games_dir self,
                   String.append (Raw.ENTITY_ID first) ".csv") in
      old ← read_if_exists path;
      let df := match old with
                | Some old_df => unique_by row_eqb (old_df ++ df)
                | None => df
                end in
      to_csv df path
  end.

Definition get_all_team_games (self : NBADataFeed) (api : Remote) : IO unit :=
  for_each (store_team_games self api) (get_teams api).

(** [get_all_games]: [pd.concat] of no frame raises ValueError. *)
Definition get_all_games (self : NBADataFeed) : IO (list string) :=
  files ← listdir (team_games_dir self);
  let dfs := map (fun f => map Raw.GAME_ID (snd f)) files in
  match dfs with
  | [] => raise ValueError
  | _ => mret (unique_by String.eqb (concat dfs))
  end.

(** ** [NBADataFeed]: the player tables and the list of processed games *)

(** The two other API calls: the PLAYER_ID column of
    [BoxScoreTraditionalV2] for a game, and the answer of [PlayerGameLog]
    for a player (nulls and unused columns removed), which may or may not
    carry the column Player_ID. *)
Record PlayerRemote := {
  box_score_players : string -> list string;
  player_game_log : string -> list Raw.row;
  log_has_player_id : string -> bool
}.

(** [get_player_ids_by_game] *)
Definition get_player_ids_by_game (api : PlayerRemote) (game_id : string)
  : list string :=
  box_score_players api game_id.

(** [df["PLAYER_ID"] = str(player_id)] *)
Definition with_player_id (player_id : string) (r : Raw.row) : Raw.row :=
  {| Raw.SEASON_ID := Raw.SEASON_ID r;
     Raw.TEAM_ABBREVIATION := Raw.TEAM_ABBREVIATION r;
     Raw.ENTITY_ID := player_id;
     Raw.GAME_ID := Raw.GAME_ID r;
     Raw.GAME_DATE := Raw.GAME_DATE r;
     Raw.MATCHUP := Raw.MATCHUP r;
     Raw.WL := Raw.WL r;
     Raw.box := Raw.box r |}.

(** [get_player_games].  The dates of a game log are sorted as the texts
    the API prints; [text_order] is that sort, left open. *)
Definition get_player_games (text_order : list Raw.row -> list Raw.row)
  (api : PlayerRemote) (player_id : string) : list Raw.row :=
  let df := text_order (player_game_log api player_id) in
  if log_has_player_id api player_id then df
  else map (with_player_id player_id) df.

(** The body of the loop of [get_all_player_games], lines 168-177. *)
Definition store_player_games (self : NBADataFeed)
  (text_order : list Raw.row -> list Raw.row) (api : PlayerRemote)
  (player_id : string) : IO unit :=
  let df := get_player_games text_order api player_id in
  match df with
  | [] => mret tt                               (* continue *)
  | _ :: _ =>
      let path := (player_games_dir self, String.append player_id ".csv") in
      old ← read_if_exists path;
      let df := match old with
                | Some old_df => unique_by row_eqb (old_df ++ df)
                | None => df
                end in
      to_csv df path
  end.

(** [get_all_player_games], on the players in the order of iteration. *)
Definition get_all_player_games (self : NBADataFeed)
  (text_order : list Raw.row -> list Raw.row) (api : PlayerRemote)
  (player_ids : list string) : IO unit :=
  for_each (store_player_games self text_order api) player_ids.

(** The disk: the tables, the one-column files of game identifiers (the
    list of processed games) and the files of analyzed games. *)
Record Disk := {
  csv : Files;
  game_lists : gmap string (list string);
  ledgers : gmap string (list Ledger.row)
}.

Inductive error :=
| TableError (e : exn)
| FileNotFoundError
| UnboundLocalError.

Inductive result (A : Type) :=
| Done (a : A)
| Failed (e : error).
Arguments Done {A} a.
Arguments Failed {A} e.

Definition Script (A : Type) : Type := Disk -> result A * Disk.

Definition fail {A} (e : error) : Script A := fun d => (Failed e, d).

#[global] Instance Script_ret : MRet Script := fun A a d => (Done a, d).

#[global] Instance Script_bind : MBind Script := fun A B k m d =>
  match m d with
  | (Done a, d') => k a d'
  | (Failed e, d') => (Failed e, d')
  end.

(** Code on the tables alone, run on the disk. *)
Definition on_csv {A} (m : IO A) : Script A := fun d =>
  let with_csv fs :=
    {| csv := fs; game_lists := game_lists d; ledgers := ledgers d |} in
  match m (csv d) with
  | (Returned a, fs) => (Done a, with_csv fs)
  | (Raised e, fs) => (Failed (TableError e), with_csv fs)
  end.

(** [pd.read_csv(path, dtype={'GAME_ID': str})["GAME_ID"]] *)
Definition read_game_list (path : string) : Script (list string) := fun d =>
  match game_lists d !! path with
  | Some l => (Done l, d)
  | None => (Failed FileNotFoundError, d)
  end.

Definition write_game_list (path : string) (l : list string) : Script unit :=
  fun d =>
    (Done tt,
     {| csv := csv d; game_lists := <[path := l]> (game_lists d);
        ledgers := ledgers d |}).

(** [player_games_to_update] *)
Definition player_games_to_update (self : NBADataFeed)
  : Script (list string) :=
  all_games ← on_csv (get_all_games self);
  preexisting_games ← read_game_list (preexisting_games_path self);
  mret (List.filter (fun g => negb (mem g preexisting_games)) all_games).

(** [update_preexisting_games] *)
Definition update_preexisting_games (self : NBADataFeed)
  (update_df : list string) : Script unit :=
  preexisting_games ← read_game_list (preexisting_games_path self);
  write_game_list (preexisting_games_path self)
                  (unique_by String.eqb (preexisting_games ++ update_df)).

(** [update_player_games]; [set_order] is the order of iteration over the
    set [player_ids]. *)
Definition update_player_games (self : NBADataFeed)
  (text_order : list Raw.row -> list Raw.row)
  (set_order : list string -> list string) (api : PlayerRemote)
  : Script unit :=
  games_to_update ← player_games_to_update self;
  let player_ids :=
    set_order
      (unique_by String.eqb
         (flat_map (get_player_ids_by_game api) games_to_update)) in
  on_csv (get_all_player_games self text_order api player_ids);;
  update_preexisting_games self games_to_update.

Module Feed.
(** [NBADataFeed.run] *)
Definition run (self : NBADataFeed)
  (text_order : list Raw.row -> list Raw.row)
  (set_order : list string -> list string)
  (teams : Remote) (players : PlayerRemote) : Script unit :=
  on_csv (get_all_team_games self teams);;
  update_player_games self text_order set_order players.
End Feed.

(** ** [NBAAnalyzer]: loading the tables and the whole run *)

Module Analyzer.
Record NBAAnalyzer := {
  player_games_dir : string;
  team_games_dir : string;
  analyzed_games_path : string
}.

(** [i.endswith(".csv")] *)
Definition ends_with (suffix s : string) : bool :=
  (String.length suffix <=? String.length s)%nat
  && String.eqb
       (substring (String.length s - String.length suffix)
                  (String.length suffix) s)
       suffix.

(** Lines 82-99 for the directory [dir]. *)
Definition load (dir : string) : Script (list Avg.row) :=
  files ← on_csv (listdir dir);
  let dfs :=
    map (fun f => get_game_averages_df (snd f))
        (List.filter (fun f => ends_with ".csv" (fst f)) files) in
  match dfs with
  | [] => fail (TableError ValueError)          (* pd.concat of no frame *)
  | _ :: _ => mret (concat dfs)
  end.

(** [load_and_get_averages]; the frame it stores in [self.team_df] or
    [self.player_df] is returned.  With neither flag set, [dir] is read
    before it is assigned. *)
Definition load_and_get_averages (self : NBAAnalyzer) (team player : bool)
  : Script (list Avg.row) :=
  if team then load (team_games_dir self)
  else if player then load (player_games_dir self)
  else fail UnboundLocalError.

Definition read_ledger (path : string) : Script (list Ledger.row) := fun d =>
  match ledgers d !! path with
  | Some l => (Done l, d)
  | None => (Failed FileNotFoundError, d)
  end.

Definition write_ledger (path : string) (l : list Ledger.row) : Script unit :=
  fun d =>
    (Done tt,
     {| csv := csv d; game_lists := game_lists d;
        ledgers := <[path := l]> (ledgers d) |}).

(** [update_player_df] with its reading and writing of the file of
    analyzed games; [columns] are the columns of [self.player_df]. *)
Definition update_player_df_file (set_order : list string -> list string)
  (self : NBAAnalyzer) (columns : list string) (player_rows : list Avg.row)
  : Script (list Ledger.row) :=
  analyzed_games_df ← read_ledger (analyzed_games_path self);
  let df :=
    update_player_df set_order
      {| pf_columns := columns; pf_rows := player_rows |}
      analyzed_games_df in
  write_ledger (analyzed_games_path self) df;;
  mret df.

(** [NBAAnalyzer.run]; the result is [self.merged_data].  [header] is the
    header of the player files. *)
Definition run (set_order : list string -> list string)
  (self : NBAAnalyzer) (header : list string) : Script (list Merged.row) :=
  team_df ← load_and_get_averages self true false;
  player_df ← load_and_get_averages self false true;
  ledger ← update_player_df_file set_order self
             (keep_cols false true header) player_df;
  mret (clean_and_merge_dfs team_df ledger).
End Analyzer.

(** * Example tables *)

(** A team file of two games three days apart, the second in a new season. *)
Definition hawks_2018_last : Raw.row :=
  {| Raw.SEASON_ID := "22018"; Raw.TEAM_ABBREVIATION := "ATL";
     Raw.ENTITY_ID := "1610612737"; Raw.GAME_ID := "0021801230";
     Raw.GAME_DATE := 17996; Raw.MATCHUP := "ATL vs. IND"; Raw.WL := "W";
     Raw.box := [Zc 134] |}.

Definition hawks_2019_first : Raw.row :=
  {| Raw.SEASON_ID := "22019"; Raw.TEAM_ABBREVIATION := "ATL";
     Raw.ENTITY_ID := "1610612737"; Raw.GAME_ID := "0021900001";
     Raw.GAME_DATE := 17999; Raw.MATCHUP := "ATL @ DET"; Raw.WL := "L";
     Raw.box := [Zc 117] |}.

Definition hawks_file : list Raw.row := [hawks_2019_first; hawks_2018_last].

(** Two team rows of one game that both carry the home flag. *)
Definition both_home_a : Avg.row :=
  {| Avg.TEAM_ABBREVIATION := "ATL"; Avg.ENTITY_ID := "1610612737";
     Avg.GAME_ID := "0021900001"; Avg.HOME_GAME := 1; Avg.WL := 1;
     Avg.box := [Zc 117]; Avg.REST_DAYS := 0; Avg.avgs := [] |}.

Definition both_home_b : Avg.row :=
  {| Avg.TEAM_ABBREVIATION := "DET"; Avg.ENTITY_ID := "1610612765";
     Avg.GAME_ID := "0021900001"; Avg.HOME_GAME := 1; Avg.WL := 0;
     Avg.box := [Zc 100]; Avg.REST_DAYS := 0; Avg.avgs := [] |}.

(** Five player files.  Four players of one team played game 0021900010 at
    home and scored 3, 1, 4 and 2 points; no file of a visiting player of
    that game is stored.  The first of them also played game 0021900020 at
    home, where the fifth player visited. *)
Definition player_row (player game : string) (date : Z) (matchup wl : string)
  (pts : Z) : Raw.row :=
  {| Raw.SEASON_ID := "22019"; Raw.TEAM_ABBREVIATION := "";
     Raw.ENTITY_ID := player; Raw.GAME_ID := game; Raw.GAME_DATE := date;
     Raw.MATCHUP := matchup; Raw.WL := wl; Raw.box := [Zc pts] |}.

Definition player_files : list (list Raw.row) :=
  [ [ player_row "201" "0021900010" 18000 "ATL vs. DET" "W" 3;
      player_row "201" "0021900020" 18002 "ATL vs. NYK" "L" 9 ];
    [ player_row "202" "0021900010" 18000 "ATL vs. DET" "W" 1 ];
    [ player_row "203" "0021900010" 18000 "ATL vs. DET" "W" 4 ];
    [ player_row "204" "0021900010" 18000 "ATL vs. DET" "W" 2 ];
    [ player_row "305" "0021900020" 18002 "NYK @ ATL" "W" 30 ] ].

(** [load_and_get_averages(player=True)] on these files. *)
Definition example_player_df : PlayerFrame :=
  {| pf_columns :=
       keep_cols false true
         ["SEASON_ID"; "PLAYER_ID"; "GAME_ID"; "GAME_DATE"; "MATCHUP"; "WL";
          "PTS"];
     pf_rows := flat_map get_game_averages_df player_files |}.

(** The home-side players of game 0021900010. *)
Definition example_home_side : list Avg.row :=
  List.filter (fun r => Z.eqb (Avg.HOME_GAME r) 1)
    (List.filter (fun r => String.eqb (Avg.GAME_ID r) "0021900010")
                 (pf_rows example_player_df)).

(** The ledger after a first run on an empty ledger. *)
Definition example_ledger : list Ledger.row :=
  update_player_df (@rev string) example_player_df [].

(** Three games of four teams: Atlanta hosts Boston, New York hosts
    Detroit, then Atlanta hosts Detroit.  One file for each team and one
    for a player of each team. *)
Definition file_row (abbr entity game : string) (date : Z)
  (matchup wl : string) (pts : Z) : Raw.row :=
  {| Raw.SEASON_ID := "22019"; Raw.TEAM_ABBREVIATION := abbr;
     Raw.ENTITY_ID := entity; Raw.GAME_ID := game; Raw.GAME_DATE := date;
     Raw.MATCHUP := matchup; Raw.WL := wl; Raw.box := [Zc pts] |}.

Definition team_files : list (list Raw.row) :=
  [ [ file_row "ATL" "1610612737" "0021900001" 18000 "ATL vs. BOS" "W" 110;
      file_row "ATL" "1610612737" "0021900003" 18002 "ATL vs. DET" "L" 95 ];
    [ file_row "BOS" "1610612738" "0021900001" 18000 "BOS @ ATL" "L" 101 ];
    [ file_row "NYK" "1610612752" "0021900002" 18001 "NYK vs. DET" "W" 99 ];
    [ file_row "DET" "1610612765" "0021900002" 18001 "DET @ NYK" "L" 90;
      file_row "DET" "1610612765" "0021900003" 18002 "DET @ ATL" "W" 104 ] ].

Definition roster_files : list (list Raw.row) :=
  [ [ file_row "" "201" "0021900001" 18000 "ATL vs. BOS" "W" 30;
      file_row "" "201" "0021900003" 18002 "ATL vs. DET" "L" 22 ];
    [ file_row "" "202" "0021900001" 18000 "BOS @ ATL" "L" 25 ];
    [ file_row "" "203" "0021900002" 18001 "NYK vs. DET" "W" 18 ];
    [ file_row "" "204" "0021900002" 18001 "DET @ NYK" "L" 12;
      file_row "" "204" "0021900003" 18002 "DET @ ATL" "W" 27 ] ].

(** [load_and_get_averages(team=True)] and [update_player_df] after
    [load_and_get_averages(player=True)], on these files and an empty
    ledger. *)
Definition example_team_df : list Avg.row :=
  flat_map get_game_averages_df team_files.

Definition example_analyzed : list Ledger.row :=
  update_player_df (fun l => l)
    {| pf_columns :=
         keep_cols false true
           ["SEASON_ID"; "PLAYER_ID"; "GAME_ID"; "GAME_DATE"; "MATCHUP";
            "WL"; "PTS"];
       pf_rows := flat_map get_game_averages_df roster_files |}
    [].

(** A data feed with separate directories; the team directory holds
    Atlanta's table with its first game, the player directory the table of
    one player.  The API now reports two games for Atlanta. *)
Definition example_feed : NBADataFeed :=
  {| player_games_dir := "data/players";
     team_games_dir := "data/teams/";
     preexisting_games_path := "data/preexisting_games.csv" |}.

Definition hawks_game_1 : Raw.row :=
  file_row "ATL" "1610612737" "0021900001" 18000 "ATL vs. BOS" "W" 110.
Definition hawks_game_3 : Raw.row :=
  file_row "ATL" "1610612737" "0021900003" 18002 "ATL vs. DET" "L" 95.

Definition example_api : Remote :=
  {| get_teams := ["1610612737"];
     league_game_finder := fun _ => [hawks_game_1; hawks_game_3] |}.

Definition example_files : Files :=
  <[ ("data/teams/", "1610612737.csv") := [hawks_game_1] ]>
    (<[ ("data/players", "201.csv") :=
          [file_row "" "201" "0021900001" 18000 "ATL vs. BOS" "W" 30] ]> ∅).

(** ** Notions used in the statements about season averages *)

(** The rows of each season are consecutive in the date-sorted frame:
    grouping the frame by season, in the order in which the seasons first
    appear, gives the frame back. *)
Definition seasons_contiguous (df : list Df.row) : Prop :=
  flat_map (fun season => season_games season df)
           (unique_by String.eqb (map Df.SEASON_YEAR df))
  = df.

(** The number of rows of [season] among the first [k] rows: the 0-based
    position, within its season, of the row at index [k]. *)
Definition position_in_season (season : string) (k : nat) (df : list Df.row)
  : nat :=
  length (season_games season (firstn k df)).

(** The arithmetic mean of the [j]-th statistic over the given rows. *)
Definition column_mean (j : nat) (rows : list (list Qc)) : Qc :=
  (Qc_sum (map (fun row => nth j row (Zc 0)) rows)
   / Zc (Z.of_nat (length rows)))%Qc.

(** The statistics of a row other than its rest days: they come from the
    row of the file alone. *)
Definition own_stats (r : Raw.row) : list Qc :=
  Zc (wl_int (Raw.WL r)) :: Raw.box r.

(** A file whose seasons interleave in date order: a game of season 2018
    is dated after the first game of season 2019. *)
Definition interleaved_file : list Raw.row :=
  [ {| Raw.SEASON_ID := "22018"; Raw.TEAM_ABBREVIATION := "ATL";
       Raw.ENTITY_ID := "1610612737"; Raw.GAME_ID := "0021801229";
       Raw.GAME_DATE := 17990; Raw.MATCHUP := "ATL vs. IND"; Raw.WL := "W";
       Raw.box := [Zc 10] |};
    {| Raw.SEASON_ID := "22019"; Raw.TEAM_ABBREVIATION := "ATL";
       Raw.ENTITY_ID := "1610612737"; Raw.GAME_ID := "0021900001";
       Raw.GAME_DATE := 17995; Raw.MATCHUP := "ATL @ DET"; Raw.WL := "L";
       Raw.box := [Zc 50] |};
    {| Raw.SEASON_ID := "22018"; Raw.TEAM_ABBREVIATION := "ATL";
       Raw.ENTITY_ID := "1610612737"; Raw.GAME_ID := "0021801230";
       Raw.GAME_DATE := 18000; Raw.MATCHUP := "ATL vs. ORL"; Raw.WL := "W";
       Raw.box := [Zc 30] |} ].

(** The same file as [hawks_file], with the last game of season 2018 played
    six days earlier. *)
Definition hawks_file_long_break : list Raw.row :=
  [ hawks_2019_first;
    {| Raw.SEASON_ID := "22018"; Raw.TEAM_ABBREVIATION := "ATL";
       Raw.ENTITY_ID := "1610612737"; Raw.GAME_ID := "0021801230";
       Raw.GAME_DATE := 17990; Raw.MATCHUP := "ATL vs. IND"; Raw.WL := "W";
       Raw.box := [Zc 134] |} ].

(** ** Notions used in the further properties *)

(** [row[stats_cols]] for a row of the frame returned by
    [get_game_averages_df]: WL, the box-score columns, REST_DAYS. *)
Definition raw_stats (r : Avg.row) : list Qc :=
  Zc (Avg.WL r) :: Avg.box r ++ [Zc (Avg.REST_DAYS r)].

(** A one-season file of three games. *)
Definition one_season_file : list Raw.row :=
  [ file_row "ATL" "1610612737" "0021900001" 18000 "ATL vs. BOS" "W" 110;
    file_row "ATL" "1610612737" "0021900009" 18001 "ATL @ NYK" "L" 90;
    file_row "ATL" "1610612737" "0021900017" 18004 "ATL vs. DET" "W" 100 ].

(** A disk for the analyzer: the four team files and the four player files
    of the example in two directories, a file that is no CSV file in each,
    and an empty file of analyzed games. *)
Definition example_analyzer : Analyzer.NBAAnalyzer :=
  {| Analyzer.player_games_dir := "data/players";
     Analyzer.team_games_dir := "data/teams";
     Analyzer.analyzed_games_path := "data/analyzed_games.csv" |}.

Definition name_files (dir : string) (tables : list (list Raw.row))
  : list (string * string * list Raw.row) :=
  map (fun t => (dir,
                 String.append (match t with
                                | r :: _ => Raw.ENTITY_ID r
                                | [] => ""
                                end) ".csv",
                 t))
      tables.

Definition example_disk : Disk :=
  {| csv :=
       list_to_map
         (name_files "data/teams" team_files ++
          name_files "data/players" roster_files ++
          [ ("data/teams", "README.md", [hawks_game_1]);
            ("data/players", "notes.txt", []) ]);
     game_lists := ∅;
     ledgers := {[ "data/analyzed_games.csv" := [] ]} |}.

Definition roster_header : list string :=
  ["SEASON_ID"; "PLAYER_ID"; "GAME_ID"; "GAME_DATE"; "MATCHUP"; "WL"; "PTS"].

(** A player API for the example: the box scores name one player a side,
    and the game logs are the player files. *)
Definition example_player_api : PlayerRemote :=
  {| box_score_players := fun g =>
       if String.eqb g "0021900001" then ["201"; "202"] else ["999"];
     player_game_log := fun p =>
       if String.eqb p "201"
       then [file_row "" "" "0021900001" 18000 "ATL vs. BOS" "W" 30]
       else if String.eqb p "202"
       then [file_row "" "202" "0021900001" 18000 "BOS @ ATL" "L" 25]
       else [];
     log_has_player_id := fun p => negb (String.eqb p "201") |}.


(** The files of a directory as [listdir] lists them. *)
Definition listing (dir : string) (fs : Files)
  : list (string * list Raw.row) :=
  map (fun kv => (snd (fst kv), snd kv))
      (List.filter (fun kv => String.eqb (fst (fst kv)) dir)
                   (map_to_list fs)).

(** * Properties *)

(** ** Lists *)

Section ListFacts.
Context {A B : Type}.

Lemma nth_error_combine (l1 : list A) (l2 : list B) k a b :
  nth_error (combine l1 l2) k = Some (a, b) <->
  nth_error l1 k = Some a /\ nth_error l2 k = Some b.
Proof.
  revert l2 k.
  induction l1 as [|x l1 IH]; intros [|y l2] [|k]; simpl;
    try (split; [discriminate | intros [? ?]; discriminate]).
  - split; [intros [= -> ->]; auto | intros [[= ->] [= ->]]; auto].
  - apply IH.
Qed.

Lemma insert_by_perm (le : A -> A -> bool) x l :
  Permutation (insert_by le x l) (x :: l).
Proof.
  induction l as [|y l IH]; simpl; [reflexivity|].
  destruct (le x y); [reflexivity|].
  rewrite IH. apply perm_swap.
Qed.

Lemma sort_by_perm (le : A -> A -> bool) l : Permutation (sort_by le l) l.
Proof.
  induction l as [|x l IH]; simpl; [constructor|].
  rewrite insert_by_perm. now constructor.
Qed.

Lemma sort_by_length (le : A -> A -> bool) l :
  length (sort_by le l) = length l.
Proof. apply Permutation_length, sort_by_perm. Qed.

Lemma sort_by_In (le : A -> A -> bool) l x : In x (sort_by le l) <-> In x l.
Proof.
  split; apply Permutation_in;
    [apply sort_by_perm | symmetry; apply sort_by_perm].
Qed.

(** With a total order the result is sorted. *)
Lemma insert_by_sorted (le : A -> A -> bool) x l :
  (forall a b, le a b = false -> le b a = true) ->
  Sorted (fun a b => le a b = true) l ->
  Sorted (fun a b => le a b = true) (insert_by le x l).
Proof.
  intros Htot Hs. induction l as [|y l IH]; simpl.
  - repeat constructor.
  - destruct (le x y) eqn:E.
    + constructor; [assumption | constructor; assumption].
    + inversion Hs as [|? ? Hs' Hhd]; subst.
      constructor; [apply IH; assumption|].
      destruct l as [|z l]; simpl.
      * constructor. now apply Htot.
      * destruct (le x z); constructor; [now apply Htot|].
        now inversion Hhd.
Qed.

Lemma sort_by_sorted (le : A -> A -> bool) l :
  (forall a b, le a b = false -> le b a = true) ->
  Sorted (fun a b => le a b = true) (sort_by le l).
Proof.
  intros Htot. induction l as [|x l IH]; simpl; [constructor|].
  now apply insert_by_sorted.
Qed.

Lemma filter_length_le (f : A -> bool) l :
  length (List.filter f l) <= length l.
Proof. induction l as [|x l IH]; simpl; [lia|]. destruct (f x); simpl; lia. Qed.
End ListFacts.

Section UniqueFacts.
Context {A : Type} (eqb : A -> A -> bool).
Hypothesis eqb_spec : forall x y, eqb x y = true <-> x = y.

Lemma unique_by_In l x : In x (unique_by eqb l) <-> In x l.
Proof using eqb_spec.
  induction l as [|y l IH]; simpl; [tauto|].
  rewrite filter_In, IH. split.
  - intros [?|[? _]]; auto.
  - intros [?|?]; auto.
    destruct (eqb y x) eqn:E.
    + left. now apply eqb_spec.
    + right. now split.
Qed.

Lemma unique_by_NoDup l : List.NoDup (unique_by eqb l).
Proof using eqb_spec.
  induction l as [|y l IH]; simpl; constructor.
  - rewrite filter_In. intros [_ H].
    assert (eqb y y = true) as E by now apply eqb_spec.
    now rewrite E in H.
  - now apply List.NoDup_filter.
Qed.

(** A list without duplicates is left as it is. *)
Lemma unique_by_NoDup_id l : List.NoDup l -> unique_by eqb l = l.
Proof using eqb_spec.
  induction 1 as [|y l Hy _ IH]; simpl; [reflexivity|].
  rewrite IH. f_equal.
  apply forallb_filter_id, forallb_forall. intros z Hz.
  destruct (eqb y z) eqn:E; [|reflexivity].
  apply eqb_spec in E. now subst.
Qed.
End UniqueFacts.

(** ** Rest days *)

Lemma diff_days_length prev dates :
  length (diff_days prev dates) = length dates.
Proof.
  revert prev. induction dates as [|d t IH]; intros prev; simpl; auto.
Qed.

Lemma diff_days_nth prev dates k o :
  nth_error (diff_days prev dates) k = Some o ->
  exists d,
    nth_error dates k = Some d /\
    o = option_map (fun p => d - p)%Z
          (match k with 0 => prev | S k' => nth_error dates k' end).
Proof.
  revert prev k. induction dates as [|d0 t IH]; intros prev [|k]; simpl;
    try discriminate.
  - intros [= <-]. now exists d0.
  - intros H. destruct (IH _ _ H) as (d & Hd & ->).
    exists d. split; [assumption|]. now destruct k.
Qed.

Lemma prepare_length df : length (prepare df) = length df.
Proof.
  unfold prepare. rewrite length_map, length_combine, diff_days_length.
  rewrite length_map. unfold sort_values_GAME_DATE.
  rewrite sort_by_length. lia.
Qed.

Lemma prepare_nth df k d :
  nth_error (prepare df) k = Some d ->
  exists this o,
    nth_error (sort_values_GAME_DATE df) k = Some this /\
    nth_error (diff_days None (map Raw.GAME_DATE (sort_values_GAME_DATE df))) k
      = Some o /\
    d = derive this o.
Proof.
  unfold prepare. rewrite nth_error_map.
  destruct (nth_error (combine _ _) k) as [[this o]|] eqn:E; [|discriminate].
  intros [= <-]. apply nth_error_combine in E. destruct E.
  now exists this, o.
Qed.

Lemma get_game_averages_df_nth df k r :
  nth_error (get_game_averages_df df) k = Some r ->
  exists d avg,
    nth_error (prepare df) k = Some d /\
    nth_error (average_rows (prepare df)) k = Some avg /\
    r = attach d avg.
Proof.
  unfold get_game_averages_df. rewrite nth_error_map.
  destruct (nth_error (combine _ _) k) as [[d avg]|] eqn:E; [|discriminate].
  intros [= <-]. apply nth_error_combine in E. destruct E.
  now exists d, avg.
Qed.

Lemma sort_values_GAME_DATE_sorted df :
  Sorted (fun a b => (Raw.GAME_DATE a <= Raw.GAME_DATE b)%Z)
         (sort_values_GAME_DATE df).
Proof.
  unfold sort_values_GAME_DATE.
  eapply Sorted_ind with
    (P := fun l => Sorted (fun a b => (Raw.GAME_DATE a <= Raw.GAME_DATE b)%Z) l);
    [constructor| |apply sort_by_sorted; intros; lia].
  intros a l _ IH Hhd. constructor; [assumption|].
  destruct Hhd; constructor. lia.
Qed.

(** ** Grouping by season keeps every row *)

Lemma indicator_sum (a : string) (ks : list string) :
  List.NoDup ks -> In a ks ->
  list_sum (map (fun k => if String.eqb a k then 1 else 0) ks) = 1.
Proof.
  induction 1 as [|k ks Hk Hnd IH]; simpl; [tauto|].
  intros [->|Hin].
  - rewrite String.eqb_refl. f_equal.
    clear IH Hnd. induction ks as [|k' ks IH]; simpl; [reflexivity|].
    destruct (String.eqb a k') eqn:E.
    + apply String.eqb_eq in E. subst. exfalso. apply Hk. now left.
    + apply IH. intros H. apply Hk. now right.
  - destruct (String.eqb a k) eqn:E.
    + apply String.eqb_eq in E. subst. contradiction.
    + now apply IH.
Qed.

Lemma list_sum_map_add {A} (f g : A -> nat) l :
  list_sum (map (fun x => f x + g x) l)
  = list_sum (map f l) + list_sum (map g l).
Proof. induction l as [|x l IH]; simpl; [reflexivity|]. rewrite IH. lia. Qed.

Lemma groups_cover {A} (key : A -> string) (l : list A) (ks : list string) :
  List.NoDup ks -> (forall x, In x l -> In (key x) ks) ->
  list_sum
    (map (fun k => length (List.filter (fun x => String.eqb (key x) k) l)) ks)
  = length l.
Proof.
  intros Hnd. induction l as [|x l IH]; intros Hin; simpl.
  - clear. induction ks; simpl; auto.
  - rewrite <- IH by (intros; apply Hin; now right).
    change (S ?n) with (1 + n).
    rewrite <- (indicator_sum (key x) ks Hnd) at 1 by (apply Hin; now left).
    rewrite <- list_sum_map_add. f_equal. apply map_ext. intros k.
    now destruct (String.eqb (key x) k).
Qed.

Lemma String_eqb_spec x y : String.eqb x y = true <-> x = y.
Proof. apply String.eqb_eq. Qed.

Lemma season_loop_length cum played rest :
  length (season_loop cum played rest) = length rest.
Proof.
  revert cum played. induction rest as [|row t IH]; intros; simpl; auto.
Qed.

Lemma season_rows_length g : length (season_rows g) = length g.
Proof. destruct g; simpl; [reflexivity|]. now rewrite season_loop_length. Qed.

Lemma average_rows_length df : length (average_rows df) = length df.
Proof.
  unfold average_rows. rewrite length_flat_map.
  erewrite map_ext;
    [|intros s; rewrite season_rows_length, length_map; reflexivity].
  apply (groups_cover Df.SEASON_YEAR).
  - apply unique_by_NoDup, String_eqb_spec.
  - intros x Hx. apply unique_by_In; [apply String_eqb_spec|].
    now apply in_map.
Qed.

(** One output row for every input row. *)
Lemma get_game_averages_df_length df :
  length (get_game_averages_df df) = length df.
Proof.
  unfold get_game_averages_df.
  rewrite length_map, length_combine, average_rows_length, prepare_length.
  lia.
Qed.

(** C9. After the rows are sorted by date, the rest days of the first row
    are 0 and the rest days of every later row are the number of days from
    the date of the row just before it to its own date, whatever the
    seasons of the two rows are. *)
Theorem rest_days_of_sorted_rows (df : list Raw.row) (k : nat) (r : Avg.row) :
  nth_error (get_game_averages_df df) k = Some r ->
  exists this,
    nth_error (sort_values_GAME_DATE df) k = Some this /\
    Avg.GAME_ID r = Raw.GAME_ID this /\
    match k with
    | 0 => Avg.REST_DAYS r = 0%Z
    | S k' =>
        exists prev,
          nth_error (sort_values_GAME_DATE df) k' = Some prev /\
          (Raw.GAME_DATE prev <= Raw.GAME_DATE this)%Z /\
          Avg.REST_DAYS r = (Raw.GAME_DATE this - Raw.GAME_DATE prev)%Z
    end.
Proof.
  intros Hr.
  destruct (get_game_averages_df_nth _ _ _ Hr) as (d & avg & Hd & _ & ->).
  destruct (prepare_nth _ _ _ Hd) as (this & o & Hthis & Ho & ->).
  exists this. split; [assumption|]. split; [reflexivity|].
  destruct (diff_days_nth _ _ _ _ Ho) as (date & Hdate & ->).
  rewrite nth_error_map, Hthis in Hdate. injection Hdate as <-.
  destruct k as [|k']; simpl; [reflexivity|].
  rewrite nth_error_map.
  destruct (nth_error (sort_values_GAME_DATE df) k') as [prev|] eqn:Hprev.
  - exists prev. split; [reflexivity|]. split; [|reflexivity].
    pose proof (sort_values_GAME_DATE_sorted df) as Hs.
    revert Hs Hprev Hthis. generalize (sort_values_GAME_DATE df).
    clear. intros l Hs. revert k'.
    induction Hs as [|a l Hs IH Hhd]; intros [|k']; simpl; try discriminate.
    + intros [= ->] Hthis. destruct l; [discriminate|].
      injection Hthis as ->. now inversion Hhd.
    + apply IH.
  - apply nth_error_None in Hprev.
    assert (nth_error (sort_values_GAME_DATE df) (S k') <> None) as Hlt
      by congruence.
    apply nth_error_Some in Hlt. lia.
Qed.

(** The second row of the sorted example file comes 3 days after the first,
    in the next season: its rest days are 3. *)
Lemma rest_days_of_sorted_rows_witness :
  exists r,
    nth_error (get_game_averages_df hawks_file) 1 = Some r /\
    exists this,
      nth_error (sort_values_GAME_DATE hawks_file) 1 = Some this /\
      Avg.GAME_ID r = Raw.GAME_ID this /\
      exists prev,
        nth_error (sort_values_GAME_DATE hawks_file) 0 = Some prev /\
        (Raw.GAME_DATE prev <= Raw.GAME_DATE this)%Z /\
        Avg.REST_DAYS r = (Raw.GAME_DATE this - Raw.GAME_DATE prev)%Z.
Proof.
  eexists. split; [vm_compute; reflexivity|].
  apply (rest_days_of_sorted_rows hawks_file 1).
  vm_compute; reflexivity.
Defined.

(** ** The incomplete-game filter *)

Lemma mask_filter {A B} (f : A -> B) (keep : B -> bool) (l : list A) :
  map fst (List.filter (fun p => keep (snd p)) (combine l (map f l)))
  = List.filter (fun x => keep (f x)) l.
Proof.
  induction l as [|x l IH]; simpl; [reflexivity|].
  destruct (keep (f x)); simpl; now rewrite IH.
Qed.

(** The number of rows of the team table with the game identifier of [r]. *)
Lemma complete_games_filter team_df :
  complete_games team_df
  = List.filter
      (fun r =>
         Nat.eqb (length (List.filter
                            (fun r' => String.eqb (Avg.GAME_ID r') (Avg.GAME_ID r))
                            team_df)) 2)
      team_df.
Proof.
  unfold complete_games, game_id_counts.
  apply (mask_filter _ (fun n => Nat.eqb n 2)).
Qed.

Lemma complete_games_In team_df r :
  In r (complete_games team_df) <->
  In r team_df /\
  length (List.filter
            (fun r' => String.eqb (Avg.GAME_ID r') (Avg.GAME_ID r)) team_df)
  = 2.
Proof.
  rewrite complete_games_filter, filter_In, Nat.eqb_eq. reflexivity.
Qed.

(** C10. The filter keeps a team row exactly when two rows of the team
    table carry its game identifier; the home/away flags play no part, so
    the two rows of a game that carry the same flag are both kept. *)
Theorem complete_games_counts_rows_only (team_df : list Avg.row) (r : Avg.row) :
  (In r (complete_games team_df) <->
   In r team_df /\
   length (List.filter
             (fun r' => String.eqb (Avg.GAME_ID r') (Avg.GAME_ID r)) team_df)
   = 2) /\
  (forall a b,
     Avg.GAME_ID a = Avg.GAME_ID b -> Avg.HOME_GAME a = Avg.HOME_GAME b ->
     complete_games [a; b] = [a; b]).
Proof.
  split.
  - apply complete_games_In.
  - intros a b Hg _. rewrite complete_games_filter. simpl.
    rewrite Hg, !String.eqb_refl. reflexivity.
Qed.

Lemma complete_games_counts_rows_only_witness :
  Avg.HOME_GAME both_home_a = Avg.HOME_GAME both_home_b /\
  complete_games [both_home_a; both_home_b] = [both_home_a; both_home_b].
Proof.
  split; [reflexivity|].
  apply (proj2 (complete_games_counts_rows_only [] both_home_a));
    reflexivity.
Defined.

(** ** The ledger of analyzed games *)

Lemma unique_by_incl {A} (eqb : A -> A -> bool) l x :
  In x (unique_by eqb l) -> In x l.
Proof.
  induction l as [|y l IH]; simpl; [tauto|].
  rewrite filter_In. intros [?|[? _]]; auto.
Qed.

Lemma mem_In c l : mem c l = true <-> In c l.
Proof.
  unfold mem. rewrite existsb_exists. split.
  - intros (x & Hx & E). apply String.eqb_eq in E. now subst.
  - intros H. exists c. split; [assumption | apply String.eqb_refl].
Qed.

Lemma new_game_ids_In player_df analyzed g :
  In g (new_game_ids player_df analyzed) <->
  In g (map Avg.GAME_ID (pf_rows player_df)) /\
  ~ In g (map Ledger.GAME_ID analyzed).
Proof.
  unfold new_game_ids.
  rewrite filter_In, (unique_by_In _ String_eqb_spec), negb_true_iff.
  rewrite <- not_true_iff_false, mem_In. reflexivity.
Qed.

Lemma new_game_ids_NoDup player_df analyzed :
  List.NoDup (new_game_ids player_df analyzed).
Proof.
  apply List.NoDup_filter, unique_by_NoDup, String_eqb_spec.
Qed.

Lemma team_rows_GAME_ID ncols team_df n :
  In n (team_rows ncols team_df) ->
  exists r, In r team_df /\ Ledger.GAME_ID n = Avg.GAME_ID r
            /\ Ledger.HOME_GAME n = Avg.HOME_GAME r.
Proof.
  unfold team_rows. intros H. apply unique_by_incl, in_map_iff in H.
  destruct H as (r & <- & Hr). now exists r.
Qed.

Lemma game_rows_GAME_ID player_df g n :
  In n (game_rows player_df g) -> Ledger.GAME_ID n = g.
Proof.
  unfold game_rows. simpl. rewrite app_nil_r, in_app_iff.
  intros [H|H]; apply team_rows_GAME_ID in H;
    destruct H as (r & Hr & -> & _);
    apply filter_In in Hr; destruct Hr as [Hr _];
    apply filter_In in Hr; destruct Hr as [_ Hr];
    now apply String.eqb_eq.
Qed.

Lemma update_player_df_no_new_games
  (set_order : list string -> list string)
  (player_df : PlayerFrame) (analyzed : list Ledger.row) :
  (forall l, Permutation (set_order l) l) ->
  (forall r, In r (pf_rows player_df) ->
             In (Avg.GAME_ID r) (map Ledger.GAME_ID analyzed)) ->
  update_player_df set_order player_df analyzed = analyzed.
Proof.
  intros Hperm Hall. unfold update_player_df.
  assert (new_game_ids player_df analyzed = []) as ->.
  { destruct (new_game_ids player_df analyzed) as [|g l] eqn:E;
      [reflexivity|].
    assert (In g (new_game_ids player_df analyzed)) as Hg
      by (rewrite E; now left).
    apply new_game_ids_In in Hg. destruct Hg as [Hg Hnot].
    apply in_map_iff in Hg. destruct Hg as (r & <- & Hr).
    exfalso. apply Hnot. now apply Hall. }
  rewrite (Permutation_nil (Permutation_sym (Hperm []))).
  simpl. apply app_nil_r.
Qed.

(** C5. When every game of the player table is already in the ledger, the
    update returns the ledger as it was; and in every run the result is the
    prior ledger followed by rows of games that the ledger did not have. *)
Theorem update_player_df_keeps_ledger
  (set_order : list string -> list string)
  (player_df : PlayerFrame) (analyzed : list Ledger.row) :
  (forall l, Permutation (set_order l) l) ->
  ((forall r, In r (pf_rows player_df) ->
              In (Avg.GAME_ID r) (map Ledger.GAME_ID analyzed)) ->
   update_player_df set_order player_df analyzed = analyzed) /\
  (exists new,
     update_player_df set_order player_df analyzed = analyzed ++ new /\
     forall n, In n new -> ~ In (Ledger.GAME_ID n) (map Ledger.GAME_ID analyzed)).
Proof.
  intros Hperm. split.
  - now apply update_player_df_no_new_games.
  - eexists. split; [reflexivity|].
    intros n Hn. apply in_flat_map in Hn. destruct Hn as (g & Hg & Hn).
    apply game_rows_GAME_ID in Hn. subst g.
    apply (Permutation_in _ (Hperm _)) in Hg.
    now apply new_game_ids_In in Hg.
Qed.

Lemma update_player_df_keeps_ledger_witness :
  update_player_df (@rev string) example_player_df example_ledger
  = example_ledger.
Proof.
  apply (update_player_df_keeps_ledger (@rev string) example_player_df
           example_ledger).
  - intros l. symmetry. apply Permutation_rev.
  - intros r Hr. vm_compute in Hr.
    repeat (destruct Hr as [<-|Hr];
            [vm_compute; repeat first [left; reflexivity | right]|]).
    destruct Hr.
Defined.

(** A second run right after a first one finds no new game: every game of
    the player table has a row on one side at least. *)
Lemma update_player_df_twice
  (order1 order2 : list string -> list string)
  (player_df : PlayerFrame) (analyzed : list Ledger.row) :
  (forall l, Permutation (order1 l) l) ->
  (forall l, Permutation (order2 l) l) ->
  (forall r, In r (pf_rows player_df) ->
             Avg.HOME_GAME r = 1%Z \/ Avg.HOME_GAME r = 0%Z) ->
  update_player_df order2 player_df
    (update_player_df order1 player_df analyzed)
  = update_player_df order1 player_df analyzed.
Proof.
  intros Hp1 Hp2 Hflag. apply update_player_df_no_new_games; [assumption|].
  intros r Hr. unfold update_player_df. rewrite map_app, in_app_iff.
  destruct (in_dec string_dec (Avg.GAME_ID r) (map Ledger.GAME_ID analyzed))
    as [Hold|Hnew]; [now left|right].
  assert (In (Avg.GAME_ID r) (order1 (new_game_ids player_df analyzed)))
    as Hg.
  { apply (Permutation_in _ (Permutation_sym (Hp1 _))).
    apply new_game_ids_In. split; [now apply in_map | assumption]. }
  assert (exists n, In n (game_rows player_df (Avg.GAME_ID r))) as (n & Hn).
  { unfold game_rows. simpl.
    set (game_df := List.filter _ (pf_rows player_df)).
    assert (In r game_df) as Hgame
      by (apply filter_In; split; [assumption | apply String.eqb_refl]).
    assert (forall ncols side, In r side ->
              exists n, In n (team_rows ncols side)) as Hside.
    { intros ncols side Hin. unfold team_rows.
      destruct side as [|r0 side]; [destruct Hin|].
      simpl. eexists. left. reflexivity. }
    destruct (Hflag r Hr) as [H1|H0].
    - destruct (Hside (length (dist_stats_cols (pf_columns player_df)))
                  (List.filter (fun r => Z.eqb (Avg.HOME_GAME r) 1) game_df))
        as (n & Hn).
      + apply filter_In. split; [assumption | now apply Z.eqb_eq].
      + exists n. apply in_or_app. now left.
    - destruct (Hside (length (dist_stats_cols (pf_columns player_df)))
                  (List.filter (fun r => Z.eqb (Avg.HOME_GAME r) 0) game_df))
        as (n & Hn).
      + apply filter_In. split; [assumption | now apply Z.eqb_eq].
      + exists n. apply in_or_app. right. apply in_or_app. now left. }
  apply in_map_iff. exists n. split.
  - now apply game_rows_GAME_ID in Hn.
  - apply in_flat_map. now exists (Avg.GAME_ID r).
Qed.

(** ** Distribution rows of a new game *)

Lemma filter_nil_iff {A} (f : A -> bool) l :
  (forall x, In x l -> f x = false) -> List.filter f l = [].
Proof.
  induction l as [|x l IH]; simpl; intros H; [reflexivity|].
  rewrite (H x) by now left. apply IH. intros; apply H. now right.
Qed.

Lemma filter_all {A} (f : A -> bool) l :
  (forall x, In x l -> f x = true) -> List.filter f l = l.
Proof.
  intros H. apply forallb_filter_id, forallb_forall. exact H.
Qed.

Lemma filter_map_comm {A B} (h : A -> B) (f : B -> bool) l :
  List.filter f (map h l) = map h (List.filter (fun x => f (h x)) l).
Proof.
  induction l as [|x l IH]; simpl; [reflexivity|].
  destruct (f (h x)); simpl; now rewrite IH.
Qed.

Lemma unique_by_map {A B} (h : A -> B) (eqa : A -> A -> bool)
  (eqb : B -> B -> bool) l :
  (forall x y, eqb (h x) (h y) = eqa x y) ->
  unique_by eqb (map h l) = map h (unique_by eqa l).
Proof.
  intros H. induction l as [|x l IH]; simpl; [reflexivity|].
  rewrite IH, filter_map_comm. do 2 f_equal.
  apply filter_ext. intros y. now rewrite H.
Qed.

Lemma unique_by_constant (w : Z) l :
  l <> [] -> (forall x, In x l -> x = w) -> unique_by Z.eqb l = [w].
Proof.
  destruct l as [|x l]; [congruence|]. intros _ H. simpl.
  rewrite (H x) by now left. f_equal.
  apply filter_nil_iff. intros y Hy. apply unique_by_incl in Hy.
  rewrite (H y) by now right. now rewrite Z.eqb_refl.
Qed.

Lemma vec_eqb_refl v : vec_eqb v v = true.
Proof.
  induction v as [|x v IH]; simpl; [reflexivity|].
  unfold Qc_eqb. now rewrite Qeq_bool_refl.
Qed.

Lemma describe_length xs : length (describe xs) = 6.
Proof. reflexivity. Qed.

Lemma dist_values_length ncols team_df :
  length (dist_values ncols team_df) = 6 * ncols.
Proof.
  unfold dist_values.
  rewrite (flat_map_constant_length (c := 6)) by (intros; reflexivity).
  rewrite length_seq. lia.
Qed.

(** The rows of one side: one for each win/loss value met in the group. *)
Lemma team_rows_of_side ncols g flag (rows : list Avg.row) :
  let side :=
    List.filter (fun r => Z.eqb (Avg.HOME_GAME r) flag)
      (List.filter (fun r => String.eqb (Avg.GAME_ID r) g) rows) in
  team_rows ncols side
  = map (fun wl => {| Ledger.GAME_ID := g; Ledger.HOME_GAME := flag;
                      Ledger.WL := wl;
                      Ledger.dist := dist_values ncols side |})
        (unique_by Z.eqb (map Avg.WL side)).
Proof.
  intros side. unfold team_rows.
  rewrite <- (unique_by_map _ Z.eqb Ledger.eqb).
  - rewrite map_map. f_equal. apply map_ext_in. intros r Hr.
    apply filter_In in Hr. destruct Hr as [Hr Hflag].
    apply filter_In in Hr. destruct Hr as [_ Hg].
    apply String.eqb_eq in Hg. apply Z.eqb_eq in Hflag.
    now rewrite Hg, Hflag.
  - intros x y. unfold Ledger.eqb. simpl.
    now rewrite String.eqb_refl, Z.eqb_refl, vec_eqb_refl, andb_true_r.
Qed.

Lemma rows_of_game player_df g ids :
  List.NoDup ids -> In g ids ->
  List.filter (fun n => String.eqb (Ledger.GAME_ID n) g)
              (flat_map (game_rows player_df) ids)
  = game_rows player_df g.
Proof.
  induction 1 as [|x ids Hx Hnd IH]; simpl; [tauto|].
  intros Hin. rewrite List.filter_app.
  destruct (String.eqb x g) eqn:E.
  - apply String.eqb_eq in E. subst x.
    rewrite filter_all, (filter_nil_iff _ (flat_map _ ids)).
    + apply app_nil_r.
    + intros n Hn. apply in_flat_map in Hn. destruct Hn as (y & Hy & Hn).
      apply game_rows_GAME_ID in Hn. subst y.
      apply String.eqb_neq. intros E. rewrite E in Hy. contradiction.
    + intros n Hn. apply game_rows_GAME_ID in Hn. subst g.
      apply String.eqb_refl.
  - apply String.eqb_neq in E. destruct Hin as [?|Hin]; [contradiction|].
    rewrite IH by assumption. rewrite filter_nil_iff; [reflexivity|].
    intros n Hn. apply game_rows_GAME_ID in Hn. subst x.
    now apply String.eqb_neq.
Qed.

(** C6, in the form that holds of the code.
    For a game of the player table that the ledger lacks,
    the update appends the rows of the home-side group followed by those of
    the away-side group, one row for each win/loss value met in the group:
    none for a group without players, exactly one for a group with players
    that share their win/loss value.  A row holds the game identifier, the
    flag, the win/loss value and, for every column of the player table
    other than PLAYER_ID, GAME_ID, HOME_GAME and WL (raw box-score columns
    and rest days as well as season averages), the mean, minimum, three
    quartiles and maximum over the group; [dist_cols] names exactly these
    columns. *)
Theorem update_player_df_new_game
  (set_order : list string -> list string)
  (player_df : PlayerFrame) (analyzed : list Ledger.row) (g : string) :
  (forall l, Permutation (set_order l) l) ->
  In g (map Avg.GAME_ID (pf_rows player_df)) ->
  ~ In g (map Ledger.GAME_ID analyzed) ->
  let ncols := length (dist_stats_cols (pf_columns player_df)) in
  let side flag :=
    List.filter (fun r => Z.eqb (Avg.HOME_GAME r) flag)
      (List.filter (fun r => String.eqb (Avg.GAME_ID r) g)
                   (pf_rows player_df)) in
  let row flag wl :=
    {| Ledger.GAME_ID := g; Ledger.HOME_GAME := flag; Ledger.WL := wl;
       Ledger.dist :=
         flat_map (fun j => [ mean (column j (side flag));
                              minimum (column j (side flag));
                              quantile (Q2Qc (1 # 4)) (column j (side flag));
                              quantile (Q2Qc (1 # 2)) (column j (side flag));
                              quantile (Q2Qc (3 # 4)) (column j (side flag));
                              maximum (column j (side flag)) ])
                  (seq 0 ncols) |} in
  let side_rows flag :=
    map (row flag) (unique_by Z.eqb (map Avg.WL (side flag))) in
  exists new,
    update_player_df set_order player_df analyzed = analyzed ++ new /\
    List.filter (fun n => String.eqb (Ledger.GAME_ID n) g) new
    = side_rows 1%Z ++ side_rows 0%Z /\
    (forall flag, side flag = [] -> side_rows flag = []) /\
    (forall flag wl,
       side flag <> [] -> (forall r, In r (side flag) -> Avg.WL r = wl) ->
       side_rows flag = [row flag wl]) /\
    (forall flag wl,
       3 + length (Ledger.dist (row flag wl))
       = length (dist_cols (pf_columns player_df))) /\
    dist_cols (pf_columns player_df)
    = ["GAME_ID"; "HOME_GAME"; "WL"] ++
      flat_map (fun col => [ String.append col "_mean";
                             String.append col "_min";
                             String.append col "_q25";
                             String.append col "_q50";
                             String.append col "_q75";
                             String.append col "_max" ])
               (List.filter
                  (fun col =>
                     negb (mem col ["PLAYER_ID"; "GAME_ID"; "HOME_GAME"; "WL"]))
                  (pf_columns player_df)).
Proof.
  intros Hperm Hin Hnot ncols side row side_rows.
  exists (flat_map (game_rows player_df)
                   (set_order (new_game_ids player_df analyzed))).
  split; [reflexivity|]. split; [|split; [|split; [|split]]].
  - rewrite rows_of_game.
    + unfold game_rows. simpl. rewrite app_nil_r.
      rewrite !team_rows_of_side. reflexivity.
    + apply (Permutation_NoDup (Permutation_sym (Hperm _))).
      apply new_game_ids_NoDup.
    + apply (Permutation_in _ (Permutation_sym (Hperm _))).
      now apply new_game_ids_In.
  - intros flag E. unfold side_rows. now rewrite E.
  - intros flag wl Hne Hwl. unfold side_rows.
    rewrite (unique_by_constant wl); [reflexivity| |].
    + destruct (side flag); [congruence | discriminate].
    + intros x Hx. apply in_map_iff in Hx. destruct Hx as (r & <- & Hr).
      now apply Hwl.
  - intros flag wl. simpl.
    rewrite (flat_map_constant_length (c := 6)) by (intros; reflexivity).
    unfold dist_cols. simpl.
    rewrite (flat_map_constant_length (c := 6)) by (intros; reflexivity).
    rewrite length_seq. reflexivity.
  - reflexivity.
Qed.

(** Game 0021900020 of the example has players on both sides: two rows. *)
Lemma update_player_df_new_game_witness :
  exists new,
    update_player_df (@rev string) example_player_df [] = new /\
    map (fun n => (Ledger.HOME_GAME n, Ledger.WL n))
        (List.filter (fun n => String.eqb (Ledger.GAME_ID n) "0021900020") new)
    = [(1, 0); (0, 1)]%Z.
Proof.
  destruct (update_player_df_new_game (@rev string) example_player_df []
              "0021900020")
    as (new & Hnew & Hrows & _).
  - intros l. symmetry. apply Permutation_rev.
  - vm_compute. repeat first [left; reflexivity | right].
  - simpl. tauto.
  - exists new. split; [exact Hnew|]. rewrite Hrows. reflexivity.
Defined.

(** Game 0021900010 of the example has stored players on the home side
    only: the update appends one row for it, not two; and the distribution
    columns include those of PTS, a raw statistic. *)
Lemma update_player_df_new_game_counterexample :
  In "0021900010" (map Avg.GAME_ID (pf_rows example_player_df)) /\
  length (List.filter (fun n => String.eqb (Ledger.GAME_ID n) "0021900010")
                      (update_player_df (@rev string) example_player_df []))
  = 1 /\
  In "PTS_mean" (dist_cols (pf_columns example_player_df)) /\
  ~ In "PTS" (avg_columns
                ["SEASON_ID"; "PLAYER_ID"; "GAME_ID"; "GAME_DATE"; "MATCHUP";
                 "WL"; "PTS"]).
Proof.
  split; [vm_compute; repeat first [left; reflexivity | right]|].
  split; [vm_compute; reflexivity|].
  split; [vm_compute; repeat first [left; reflexivity | right]|].
  vm_compute. intros H.
  repeat (destruct H as [H|H]; [discriminate H|]). exact H.
Qed.

(** ** The percentile scenario *)

Lemma flat_map_chunk {A} (f : nat -> list A) (c j n : nat) :
  (forall i, length (f i) = c) -> j < n ->
  firstn c (skipn (c * j) (flat_map f (seq 0 n))) = f j.
Proof.
  intros Hlen Hj.
  replace n with (j + S (n - S j)) by lia.
  rewrite seq_app, flat_map_app. simpl.
  rewrite skipn_app.
  assert (length (flat_map f (seq 0 j)) = c * j) as Hpre.
  { rewrite (flat_map_constant_length (c := c)) by (intros; apply Hlen).
    rewrite length_seq. lia. }
  rewrite skipn_all2 by lia. rewrite Hpre, Nat.sub_diag. simpl.
  change (drop 0 ?l) with l.
  rewrite firstn_app, Hlen, Nat.sub_diag. simpl.
  rewrite <- (Hlen j), firstn_all. apply app_nil_r.
Qed.

Lemma Zc_inj a b : Zc a = Zc b -> a = b.
Proof.
  unfold Zc. intros E. apply Q2Qc_eq_iff in E.
  unfold Qeq in E. simpl in E. lia.
Qed.

Lemma NoDup_1234 : List.NoDup [Zc 1; Zc 2; Zc 3; Zc 4].
Proof.
  repeat constructor; simpl; intros H;
    repeat (destruct H as [H|H]; [apply Zc_inj in H; discriminate H|]);
    exact H.
Qed.

(** The distribution of the values 1, 2, 3, 4, in any order. *)
Lemma describe_1234 (xs : list Qc) :
  Permutation xs [Zc 1; Zc 2; Zc 3; Zc 4] ->
  describe xs
  = [ Q2Qc (5 # 2); Zc 1; Q2Qc (7 # 4); Q2Qc (5 # 2); Q2Qc (13 # 4); Zc 4 ].
Proof.
  intros Hp.
  pose proof (Permutation_length Hp) as Hlen.
  destruct xs as [|w [|x [|y [|z [|? ?]]]]]; try discriminate Hlen.
  pose proof (Permutation_NoDup (Permutation_sym Hp) NoDup_1234) as Hnd.
  assert (forall v, In v [w; x; y; z] ->
            v = Zc 1 \/ v = Zc 2 \/ v = Zc 3 \/ v = Zc 4) as Hin.
  { intros v Hv. apply (Permutation_in _ Hp) in Hv. simpl in Hv.
    intuition congruence. }
  assert (w <> x /\ w <> y /\ w <> z /\ x <> y /\ x <> z /\ y <> z)
    as (Hwx & Hwy & Hwz & Hxy & Hxz & Hyz).
  { inversion Hnd as [|? ? Hw Hnd1]; subst.
    inversion Hnd1 as [|? ? Hx Hnd2]; subst.
    inversion Hnd2 as [|? ? Hy _]; subst.
    simpl in Hw, Hx, Hy. intuition congruence. }
  destruct (Hin w) as [->|[->|[->| ->]]]; [simpl; tauto|..];
    (destruct (Hin x) as [->|[->|[->| ->]]]; [simpl; tauto|..];
       try congruence);
    (destruct (Hin y) as [->|[->|[->| ->]]]; [simpl; tauto|..];
       try congruence);
    (destruct (Hin z) as [->|[->|[->| ->]]]; [simpl; tauto|..];
       try congruence);
    unfold describe;
    repeat (apply (f_equal2 cons);
            [apply Qc_is_canon; vm_compute; reflexivity|]);
    reflexivity.
Qed.

(** C7. When the four players of a side have the values 1, 2, 3, 4 in a
    statistics column, the six distribution values of that column in the
    side's row are mean 2.5, min 1, q25 1.75, q50 2.5, q75 3.25, max 4,
    in whatever order the players stand. *)
Theorem four_player_distribution (ncols j : nat) (team_df : list Avg.row) :
  j < ncols ->
  Permutation (column j team_df) [Zc 1; Zc 2; Zc 3; Zc 4] ->
  firstn 6 (skipn (6 * j) (dist_values ncols team_df))
  = [ Q2Qc (5 # 2); Zc 1; Q2Qc (7 # 4); Q2Qc (5 # 2); Q2Qc (13 # 4); Zc 4 ].
Proof.
  intros Hj Hcol. unfold dist_values.
  rewrite (flat_map_chunk (fun j => describe (column j team_df)))
    by (assumption || reflexivity).
  now apply describe_1234.
Qed.

(** In the example, the home side of game 0021900010 has the season
    averages 3, 1, 4, 2 in SEASON_AVG_PTS, the fourth statistics column. *)
Lemma four_player_distribution_witness :
  column 3 example_home_side = [Zc 3; Zc 1; Zc 4; Zc 2] /\
  firstn 6 (skipn (6 * 3) (dist_values 5 example_home_side))
  = [ Q2Qc (5 # 2); Zc 1; Q2Qc (7 # 4); Q2Qc (5 # 2); Q2Qc (13 # 4); Zc 4 ].
Proof.
  assert (column 3 example_home_side = [Zc 3; Zc 1; Zc 4; Zc 2]) as H.
  { unfold column.
    repeat (apply (f_equal2 cons); [apply Qc_is_canon; vm_compute; reflexivity|]).
    reflexivity. }
  split; [exact H|].
  apply (four_player_distribution 5 3 example_home_side); [lia|].
  rewrite H.
  apply (Permutation_trans (l' := [Zc 1; Zc 3; Zc 4; Zc 2]));
    [apply perm_swap|].
  apply perm_skip.
  apply (Permutation_trans (l' := [Zc 3; Zc 2; Zc 4]));
    [apply perm_skip, perm_swap|].
  apply (Permutation_trans (l' := [Zc 2; Zc 3; Zc 4]));
    [apply perm_swap | reflexivity].
Defined.

(** ** The merged training table *)

Lemma merge_players_In df player_df f :
  In f (merge_players df player_df) ->
  In (Feat.team f) df /\
  exists p, In p player_df /\ same_side (Feat.team f) p = true
            /\ Feat.dist f = Ledger.dist p.
Proof.
  unfold merge_players. intros H. apply in_flat_map in H.
  destruct H as (t & Ht & H). apply in_map_iff in H.
  destruct H as (p & <- & Hp). apply filter_In in Hp. destruct Hp.
  split; [assumption|]. now exists p.
Qed.

(** A shifted row carries the values of the next row of its team. *)
Lemma shift_next_In df s :
  In s (shift_next df) ->
  exists pre post,
    df = pre ++ Shifted.cur s :: post /\
    let next := next_in_group (TEAM_ID (Shifted.cur s)) post in
    Shifted.GAME_ID_JOIN s = option_map GAME_ID next /\
    Shifted.HOME_GAME_CURR s
    = option_map (fun n => Avg.HOME_GAME (Feat.team n)) next /\
    Shifted.WL_PRED s = option_map (fun n => Avg.WL (Feat.team n)) next.
Proof.
  induction df as [|r t IH]; simpl; [tauto|].
  intros [<-|H].
  - exists [], t. simpl. auto.
  - destruct (IH H) as (pre & post & -> & Hs).
    exists (r :: pre), post. split; [reflexivity | exact Hs].
Qed.

Lemma key_eqb_Some a b g : key_eqb a b = true -> a = Some g -> b = Some g.
Proof.
  destruct a as [x|], b as [y|]; simpl; try discriminate.
  intros E [= ->]. apply String.eqb_eq in E. now subst.
Qed.

Lemma merge_home_away_In team_df player_df h a :
  In (h, a) (merge_home_away team_df player_df) ->
  let df := shift_next (sort_by team_game_leb
                          (merge_players (complete_games team_df) player_df)) in
  In h df /\ In a df /\ HOME_GAME h = 1%Z /\ HOME_GAME a = 0%Z /\
  key_eqb (Shifted.GAME_ID_JOIN h) (Shifted.GAME_ID_JOIN a) = true.
Proof.
  unfold merge_home_away. intros H. apply in_flat_map in H.
  destruct H as (h' & Hh & H). apply in_map_iff in H.
  destruct H as (a' & [= <- <-] & Ha).
  apply filter_In in Hh. destruct Hh as [Hh Hh1].
  apply filter_In in Ha. destruct Ha as [Ha Hkey].
  apply filter_In in Ha. destruct Ha as [Ha Ha0].
  apply Z.eqb_eq in Hh1, Ha0. auto.
Qed.

Lemma team_game_leb_total a b :
  team_game_leb a b = false -> team_game_leb b a = true.
Proof.
  unfold team_game_leb. rewrite (String.compare_antisym (TEAM_ID a)).
  destruct (String.compare (TEAM_ID b) (TEAM_ID a)); simpl;
    try discriminate; auto.
  intros H. destruct (String.leb_total (GAME_ID a) (GAME_ID b)); congruence.
Qed.

(** The frame that is shifted is ordered by team, then game identifier. *)
Lemma sorted_by_team_then_game (df : list Feat.row) :
  Sorted (fun a b => team_game_leb a b = true) (sort_by team_game_leb df).
Proof. apply sort_by_sorted, team_game_leb_total. Qed.

(** C2, in the form that holds of the code.
    Every row of the merged table pairs a team row whose
    home/away flag is 1 (its _HOME columns) with a team row whose flag is 0
    (its _AWAY columns).  Each of the two is a row of a game that has
    exactly two rows in the team table, matched with a ledger row of its
    own game, flag and outcome, and its join key is the game identifier of
    the next row of its team in the frame sorted by team and game.  When
    the home row has a next game, the away row's next game is the same
    one; the two rows need not be rows of one current game. *)
Theorem merged_rows_pair_by_next_game
  (team_df : list Avg.row) (player_df : list Ledger.row) (row : Merged.row) :
  In row (clean_and_merge_dfs team_df player_df) ->
  let sorted :=
    sort_by team_game_leb
            (merge_players (complete_games team_df) player_df) in
  exists h a,
    In (h, a) (merge_home_away team_df player_df) /\
    row = drop_columns (h, a) /\
    Merged.HOME_GAME (Merged.HOME row) = 1%Z /\
    Merged.HOME_GAME (Merged.AWAY row) = 0%Z /\
    (forall g, Shifted.GAME_ID_JOIN h = Some g ->
               Shifted.GAME_ID_JOIN a = Some g) /\
    (forall s, s = h \/ s = a ->
       let t := Feat.team (Shifted.cur s) in
       In t team_df /\
       length (List.filter
                 (fun r' => String.eqb (Avg.GAME_ID r') (Avg.GAME_ID t))
                 team_df) = 2 /\
       (exists p, In p player_df /\ same_side t p = true
                  /\ Feat.dist (Shifted.cur s) = Ledger.dist p) /\
       (exists pre post,
          sorted = pre ++ Shifted.cur s :: post /\
          Shifted.GAME_ID_JOIN s
          = option_map GAME_ID
              (next_in_group (TEAM_ID (Shifted.cur s)) post))).
Proof.
  intros Hrow sorted. unfold clean_and_merge_dfs in Hrow.
  apply in_map_iff in Hrow. destruct Hrow as ([h a] & <- & Hin).
  exists h, a. split; [assumption|]. split; [reflexivity|].
  destruct (merge_home_away_In _ _ _ _ Hin) as (Hh & Ha & Hh1 & Ha0 & Hkey).
  split; [exact Hh1|]. split; [exact Ha0|].
  split; [intros g; now apply key_eqb_Some|].
  assert (forall s, In s (shift_next sorted) ->
            let t := Feat.team (Shifted.cur s) in
            In t team_df /\
            length (List.filter
                      (fun r' => String.eqb (Avg.GAME_ID r') (Avg.GAME_ID t))
                      team_df) = 2 /\
            (exists p, In p player_df /\ same_side t p = true
                       /\ Feat.dist (Shifted.cur s) = Ledger.dist p) /\
            (exists pre post,
               sorted = pre ++ Shifted.cur s :: post /\
               Shifted.GAME_ID_JOIN s
               = option_map GAME_ID
                   (next_in_group (TEAM_ID (Shifted.cur s)) post))) as Hgood.
  { intros s Hs t.
    destruct (shift_next_In _ _ Hs) as (pre & post & Hsplit & Hjoin & _).
    assert (In (Shifted.cur s) sorted) as Hcur
      by (rewrite Hsplit; apply in_elt).
    apply sort_by_In, merge_players_In in Hcur.
    destruct Hcur as [Hteam Hp].
    apply (proj1 (complete_games_In team_df t)) in Hteam.
    destruct Hteam. repeat split; try assumption.
    now exists pre, post. }
  intros s [->| ->]; now apply Hgood.
Qed.

Lemma merged_rows_pair_by_next_game_witness :
  exists row,
    In row (clean_and_merge_dfs example_team_df example_analyzed) /\
    exists h a,
      In (h, a) (merge_home_away example_team_df example_analyzed) /\
      row = drop_columns (h, a) /\
      Merged.HOME_GAME (Merged.HOME row) = 1%Z /\
      Merged.HOME_GAME (Merged.AWAY row) = 0%Z /\
      (forall g, Shifted.GAME_ID_JOIN h = Some g ->
                 Shifted.GAME_ID_JOIN a = Some g).
Proof.
  destruct (clean_and_merge_dfs example_team_df example_analyzed)
    as [|row rest] eqn:E; [vm_compute in E; discriminate E|].
  exists row. split; [left; reflexivity|].
  destruct (merged_rows_pair_by_next_game example_team_df example_analyzed row)
    as (h & a & Hin & Hrow & Hh & Ha & Hkey & _).
  - rewrite E. left. reflexivity.
  - exists h, a. auto.
Defined.

(** In the example the first merged row pairs Atlanta's row of game
    0021900001 (against Boston) with Detroit's row of game 0021900002 (at
    New York): the two teams meet in game 0021900003, the next game of
    both. *)
Lemma merged_rows_pair_by_next_game_counterexample :
  exists h a,
    In (h, a) (merge_home_away example_team_df example_analyzed) /\
    GAME_ID (Shifted.cur h) = "0021900001" /\
    GAME_ID (Shifted.cur a) = "0021900002" /\
    GAME_ID (Shifted.cur h) <> GAME_ID (Shifted.cur a) /\
    Shifted.GAME_ID_JOIN h = Some "0021900003" /\
    Shifted.GAME_ID_JOIN a = Some "0021900003".
Proof.
  destruct (merge_home_away example_team_df example_analyzed)
    as [|[h a] rest] eqn:E; [vm_compute in E; discriminate E|].
  exists h, a. split; [left; reflexivity|].
  vm_compute in E. injection E as Hh Ha _. subst h a.
  repeat split; try reflexivity. discriminate.
Qed.

(** The label of a merged row is the outcome of the next row of the home
    row's team in the frame sorted by team and game, if there is one. *)
Lemma label_is_next_outcome
  (team_df : list Avg.row) (player_df : list Ledger.row) (row : Merged.row) :
  In row (clean_and_merge_dfs team_df player_df) ->
  exists h a pre post,
    In (h, a) (merge_home_away team_df player_df) /\
    row = drop_columns (h, a) /\
    sort_by team_game_leb (merge_players (complete_games team_df) player_df)
    = pre ++ Shifted.cur h :: post /\
    Merged.WL_PRED_HOME row
    = option_map (fun n => Avg.WL (Feat.team n))
                 (next_in_group (TEAM_ID (Shifted.cur h)) post).
Proof.
  intros Hrow. unfold clean_and_merge_dfs in Hrow.
  apply in_map_iff in Hrow. destruct Hrow as ([h a] & <- & Hin).
  destruct (merge_home_away_In _ _ _ _ Hin) as (Hh & _).
  destruct (shift_next_In _ _ Hh) as (pre & post & Hsplit & _ & _ & Hwl).
  exists h, a, pre, post. auto.
Qed.

(** Whenever a home-flag row and an away-flag row both are the last row of
    their team, the merged table holds their pair, without a label. *)
Lemma last_rows_are_paired
  (team_df : list Avg.row) (player_df : list Ledger.row)
  (h a : Shifted.row) :
  let df := shift_next (sort_by team_game_leb
                          (merge_players (complete_games team_df) player_df)) in
  In h df -> In a df ->
  HOME_GAME h = 1%Z -> HOME_GAME a = 0%Z ->
  Shifted.GAME_ID_JOIN h = None -> Shifted.GAME_ID_JOIN a = None ->
  In (drop_columns (h, a)) (clean_and_merge_dfs team_df player_df) /\
  Merged.WL_PRED_HOME (drop_columns (h, a)) = None.
Proof.
  intros df Hh Ha Hh1 Ha0 Hkh Hka. split.
  - unfold clean_and_merge_dfs. apply in_map. unfold merge_home_away.
    apply in_flat_map. exists h. split.
    + apply filter_In. split; [exact Hh | now apply Z.eqb_eq].
    + apply in_map, filter_In. split.
      * apply filter_In. split; [exact Ha | now apply Z.eqb_eq].
      * now rewrite Hkh, Hka.
  - simpl.
    destruct (shift_next_In _ _ Hh) as (pre & post & _ & Hjoin & _ & Hwl).
    rewrite Hwl. rewrite Hkh in Hjoin.
    now destruct (next_in_group (TEAM_ID (Shifted.cur h)) post).
Qed.

(** C3, a run that contradicts it. In the example every team's last
    row has no next game, hence no join key and no label; the second merge
    matches the missing keys with each other, and four of the five merged
    rows are such rows, paired across unrelated games and without a
    label. *)
Theorem end_of_history_rows_are_merged :
  map (fun row => (Merged.TEAM_ABBREVIATION (Merged.HOME row),
                   Merged.TEAM_ABBREVIATION (Merged.AWAY row),
                   Merged.WL_PRED_HOME row))
      (clean_and_merge_dfs example_team_df example_analyzed)
  = [ ("ATL", "DET", Some 0%Z);
      ("ATL", "BOS", None); ("ATL", "DET", None);
      ("NYK", "BOS", None); ("NYK", "DET", None) ].
Proof. vm_compute. reflexivity. Qed.

(** ** The stored team tables *)


(** C4, a run that contradicts it. With separate directories, the
    table fetched for Atlanta is written into the player directory; the
    team directory, the one [get_all_games] reads, keeps its old table, so
    the newly fetched game 0021900003 is not among the known games. *)
Theorem team_tables_go_to_player_dir :
  let run := get_all_team_games example_feed example_api example_files in
  fst run = Returned tt /\
  example_files !! ("data/players", "1610612737.csv") = None /\
  snd run !! ("data/players", "1610612737.csv")
  = Some [hawks_game_1; hawks_game_3] /\
  snd run !! ("data/teams/", "1610612737.csv") = Some [hawks_game_1] /\
  fst (get_all_games example_feed (snd run)) = Returned ["0021900001"].
Proof. vm_compute. repeat split; reflexivity. Qed.

(** ** Season averages *)

Lemma firstn_In {A} (n : nat) (l : list A) x : In x (firstn n l) -> In x l.
Proof.
  revert l. induction n as [|n IH]; intros [|y l]; simpl; try tauto.
  intros [?|?]; auto.
Qed.

Lemma aligned_blocks {K A B} (f : K -> list A) (g : K -> list B)
  (ks : list K) k a :
  (forall x, length (g x) = length (f x)) ->
  nth_error (flat_map f ks) k = Some a ->
  exists pre x post j,
    ks = pre ++ x :: post /\ k = length (flat_map f pre) + j /\
    nth_error (f x) j = Some a /\
    nth_error (flat_map g ks) k = nth_error (g x) j.
Proof.
  intros Hlen. revert k. induction ks as [|x t IH]; intros k; simpl.
  - destruct k; discriminate.
  - intros H. destruct (Nat.lt_ge_cases k (length (f x))) as [Hlt|Hge].
    + rewrite nth_error_app1 in H by assumption.
      exists [], x, t, k. simpl. repeat split; auto.
      rewrite nth_error_app1; [reflexivity | now rewrite Hlen].
    + rewrite nth_error_app2 in H by assumption.
      destruct (IH _ H) as (pre & y & post & j & -> & Hk & Hj & Hg).
      exists (x :: pre), y, post, j. simpl. repeat split; auto.
      * rewrite length_app. lia.
      * rewrite nth_error_app2 by (rewrite Hlen; assumption).
        rewrite Hlen. exact Hg.
Qed.

Lemma season_games_In season df d :
  In d (season_games season df) -> Df.SEASON_YEAR d = season.
Proof.
  unfold season_games. rewrite filter_In. intros [_ H].
  now apply String.eqb_eq.
Qed.

(** In a frame made of one block for each season, the row at offset [j] of
    the block of [x] is the [j]-th row of season [x]. *)
Lemma position_in_block (l df : list Df.row) (pre post : list string) x j :
  l = flat_map (fun s => season_games s df) (pre ++ x :: post) ->
  List.NoDup (pre ++ x :: post) ->
  j < length (season_games x df) ->
  position_in_season x
    (length (flat_map (fun s => season_games s df) pre) + j) l = j.
Proof.
  intros -> Hnd Hj. unfold position_in_season.
  rewrite flat_map_app. simpl.
  rewrite firstn_app_2, firstn_app.
  replace (j - length (season_games x df)) with 0 by lia.
  simpl. rewrite app_nil_r.
  unfold season_games at 1. rewrite List.filter_app, length_app.
  rewrite filter_nil_iff, filter_all; simpl.
  - rewrite length_firstn. lia.
  - intros d Hd. apply firstn_In, season_games_In in Hd.
    now apply String.eqb_eq.
  - intros d Hd. apply in_flat_map in Hd. destruct Hd as (s & Hs & Hd).
    apply season_games_In in Hd. apply String.eqb_neq. intros E.
    apply NoDup_remove_2 in Hnd. apply Hnd, in_or_app. left. congruence.
Qed.

Lemma season_loop_nth rest cum played i avg :
  nth_error (season_loop cum played rest) i = Some avg ->
  avg = vdiv (fold_left vadd (firstn (S i) rest) cum)
             (played + Z.of_nat (S i)).
Proof.
  revert cum played i.
  induction rest as [|row t IH]; intros cum played [|i]; simpl;
    try discriminate.
  - intros [= <-]. destruct t; reflexivity.
  - intros H. rewrite (IH _ _ _ H). simpl. f_equal. lia.
Qed.

Lemma vadd_length a b : length (vadd a b) = Nat.min (length a) (length b).
Proof.
  revert b. induction a as [|x a IH]; intros [|y b]; simpl; auto.
Qed.

Lemma nth_vadd j a b :
  j < length a -> j < length b ->
  nth j (vadd a b) (Zc 0) = (nth j a (Zc 0) + nth j b (Zc 0))%Qc.
Proof.
  revert j b. induction a as [|x a IH]; intros j [|y b]; simpl;
    try lia.
  destruct j; [reflexivity|]. intros. apply IH; lia.
Qed.

Lemma nth_fold_vadd j w rows cum :
  length cum = w -> (forall row, In row rows -> length row = w) -> j < w ->
  nth j (fold_left vadd rows cum) (Zc 0)
  = (nth j cum (Zc 0)
     + Qc_sum (map (fun row => nth j row (Zc 0)) rows))%Qc.
Proof.
  revert cum. induction rows as [|row rows IH]; intros cum Hc Hw Hj; simpl.
  - unfold Qc_sum. simpl. change (Zc 0) with (Q2Qc 0) at 3. ring.
  - rewrite IH.
    + rewrite nth_vadd by (rewrite ?Hc, ?(Hw row) by (now left); lia).
      unfold Qc_sum. simpl. ring.
    + rewrite vadd_length, Hc, (Hw row) by (now left). lia.
    + intros; apply Hw; now right.
    + assumption.
Qed.

Lemma nth_vdiv j v n :
  nth j (vdiv v n) (Zc 0) = (nth j v (Zc 0) / Zc n)%Qc.
Proof.
  unfold vdiv. destruct (Nat.lt_ge_cases j (length v)) as [Hlt|Hge].
  - rewrite (nth_indep _ _ ((Zc 0) / Zc n)%Qc) by now rewrite length_map.
    apply (map_nth (fun x => (x / Zc n)%Qc)).
  - rewrite !nth_overflow by (rewrite ?length_map; assumption).
    unfold Qcdiv. change (Zc 0) with (Q2Qc 0). ring.
Qed.

(** The loop invariant of lines 43-50: the [i]-th element of [season_rows]
    is, column by column, the mean of the first [i+1] rows. *)
Lemma season_rows_mean g w i avg j :
  (forall row, In row g -> length row = w) -> j < w ->
  nth_error (season_rows g) i = Some avg ->
  nth j avg (Zc 0) = column_mean j (firstn (S i) g).
Proof.
  destruct g as [|first t]; simpl; [destruct i; discriminate|].
  intros Hw Hj. unfold column_mean. destruct i as [|i]; simpl.
  - intros [= <-]. unfold Qc_sum. simpl.
    generalize (nth j first (Zc 0)). intros x.
    change (Zc 0) with (Q2Qc 0). change (Zc (Z.of_nat 1)) with (Q2Qc 1).
    field. discriminate.
  - intros H.
    assert (i < length t) as Hi.
    { rewrite <- (season_loop_length first 1 t).
      apply nth_error_Some. congruence. }
    rewrite (season_loop_nth _ _ _ _ _ H), nth_vdiv.
    rewrite (nth_fold_vadd j w).
    + unfold Qc_sum. simpl. rewrite length_firstn.
      replace (Nat.min (S i) (length t)) with (S i) by lia.
      do 2 f_equal. lia.
    + apply Hw. now left.
    + intros row Hrow. apply Hw. right. now apply firstn_In in Hrow.
    + assumption.
Qed.

(** When the seasons are contiguous in date order, the averages attached
    to a row are those computed for its own position in its own season:
    the column means of the season's rows up to and including it. *)
Lemma season_averages_when_contiguous (df : list Raw.row) (k : nat)
  (r : Avg.row) :
  seasons_contiguous (prepare df) ->
  nth_error (get_game_averages_df df) k = Some r ->
  exists d,
    nth_error (prepare df) k = Some d /\
    r = attach d (Avg.avgs r) /\
    let games := season_games (Df.SEASON_YEAR d) (prepare df) in
    let i := position_in_season (Df.SEASON_YEAR d) k (prepare df) in
    nth_error games i = Some d /\
    nth_error (season_rows (map stats_of games)) i = Some (Avg.avgs r) /\
    forall j,
      (forall a, In a df -> length (Raw.box a) = length (Raw.box (Df.raw d))) ->
      j < length (stats_of d) ->
      nth j (Avg.avgs r) (Zc 0)
      = column_mean j (firstn (S i) (map stats_of games)).
Proof.
  intros Hcont Hr.
  destruct (get_game_averages_df_nth _ _ _ Hr) as (d & avg & Hd & Havg & ->).
  exists d. split; [assumption|]. split; [reflexivity|]. simpl.
  set (P := prepare df) in *.
  set (f := fun s => season_games s P).
  set (g := fun s => season_rows (map stats_of (season_games s P))).
  set (ks := unique_by String.eqb (map Df.SEASON_YEAR P)).
  assert (flat_map f ks = P) as Hflat by exact Hcont.
  assert (nth_error (flat_map f ks) k = Some d) as Hd' by now rewrite Hflat.
  destruct (aligned_blocks f g ks k d) as (pre & x & post & j & Hks & Hk & Hj & Hg).
  { intros s. unfold g, f. now rewrite season_rows_length, length_map. }
  { exact Hd'. }
  assert (Df.SEASON_YEAR d = x) as Hx.
  { apply (season_games_In x P). eapply nth_error_In. exact Hj. }
  assert (position_in_season x k P = j) as Hpos.
  { rewrite Hk. apply (position_in_block P P pre post x j).
    - now rewrite <- Hks.
    - rewrite <- Hks. apply unique_by_NoDup, String_eqb_spec.
    - apply nth_error_Some. unfold f in Hj. congruence. }
  rewrite Hx, Hpos.
  assert (nth_error (g x) j = Some avg) as Hgx.
  { rewrite <- Hg. exact Havg. }
  split; [exact Hj|]. split; [exact Hgx|].
  intros c Hw Hc.
  apply (season_rows_mean _ (length (stats_of d)) _ _ _) with (2 := Hc);
    [|exact Hgx].
  intros row Hrow. apply in_map_iff in Hrow. destruct Hrow as (d' & <- & Hd2).
  apply filter_In in Hd2. destruct Hd2 as [Hd2 _].
  assert (forall e, In e P ->
            length (Raw.box (Df.raw e)) = length (Raw.box (Df.raw d))) as Hall.
  { intros e He. apply In_nth_error in He. destruct He as (n & He).
    destruct (prepare_nth _ _ _ He) as (this & o & Hthis & _ & ->).
    simpl. apply Hw. apply nth_error_In in Hthis.
    unfold sort_values_GAME_DATE in Hthis. now apply sort_by_In in Hthis. }
  unfold stats_of. simpl. rewrite !length_app. simpl.
  now rewrite (Hall d').
Qed.

(** C1, a run that contradicts it. In [interleaved_file] the rows of
    season 2018 are first and third by date.  The averages are computed
    season by season and laid against the date-sorted rows by position:
    the only row of season 2019, second by date, receives the second
    running average of season 2018, and the second row of season 2018
    receives the values of the season-2019 row. *)
Theorem averages_misattached_when_seasons_interleave :
  let out := get_game_averages_df interleaved_file in
  map (fun r => (Avg.GAME_ID r, Avg.WL r, Avg.box r, Avg.REST_DAYS r)) out
  = [ ("0021801229", 1%Z, [Zc 10], 0%Z);
      ("0021900001", 0%Z, [Zc 50], 5%Z);
      ("0021801230", 1%Z, [Zc 30], 5%Z) ] /\
  map Avg.avgs out
  = [ [Zc 1; Zc 10; Zc 0];
      [Zc 1; Zc 20; Q2Qc (5 # 2)];
      [Zc 0; Zc 50; Zc 5] ] /\
  ~ seasons_contiguous (prepare interleaved_file).
Proof.
  split; [vm_compute; reflexivity|]. split.
  - vm_compute.
    repeat (apply (f_equal2 cons);
            [repeat (apply (f_equal2 cons);
                     [apply Qc_is_canon; reflexivity|]); reflexivity|]).
    reflexivity.
  - intros H. apply (f_equal (map (fun d => Raw.GAME_ID (Df.raw d)))) in H.
    vm_compute in H. discriminate H.
Qed.

(** ** No look-ahead *)

Lemma season_loop_prefix rest cum played i :
  nth_error (season_loop cum played rest) i
  = nth_error (season_loop cum played (firstn (S i) rest)) i.
Proof.
  revert cum played i.
  induction rest as [|row t IH]; intros cum played [|i]; simpl; auto.
Qed.

(** The [i]-th running average depends on the first [i+1] rows only. *)
Lemma season_rows_prefix g i :
  nth_error (season_rows g) i = nth_error (season_rows (firstn (S i) g)) i.
Proof.
  destruct g as [|first t]; [reflexivity|]. destruct i as [|i]; simpl; auto.
  apply season_loop_prefix.
Qed.

Lemma removelast_vadd a b :
  removelast (vadd a b) = vadd (removelast a) (removelast b).
Proof.
  revert b. induction a as [|x a IH]; intros [|y b]; try reflexivity.
  - now destruct a.
  - specialize (IH b). destruct a as [|x' a], b as [|y' b];
      try reflexivity.
    transitivity ((x + y)%Qc :: removelast (vadd (x' :: a) (y' :: b)));
      [reflexivity|].
    rewrite IH. reflexivity.
Qed.

Lemma removelast_vdiv v n : removelast (vdiv v n) = vdiv (removelast v) n.
Proof.
  unfold vdiv. induction v as [|x v IH]; simpl; [reflexivity|].
  destruct v; simpl in *; [reflexivity|]. now rewrite IH.
Qed.

Lemma season_loop_removelast rest cum played :
  map (@removelast Qc) (season_loop cum played rest)
  = season_loop (removelast cum) played (map (@removelast Qc) rest).
Proof.
  revert cum played. induction rest as [|row t IH]; intros; simpl;
    [reflexivity|].
  now rewrite IH, removelast_vdiv, removelast_vadd.
Qed.

(** Dropping the last column, REST_DAYS, commutes with the averaging. *)
Lemma season_rows_removelast g :
  map (@removelast Qc) (season_rows g)
  = season_rows (map (@removelast Qc) g).
Proof.
  destruct g as [|first t]; simpl; [reflexivity|].
  now rewrite season_loop_removelast.
Qed.

Lemma prepare_own_stats df d :
  In d (prepare df) -> removelast (stats_of d) = own_stats (Df.raw d).
Proof.
  intros Hd. apply In_nth_error in Hd. destruct Hd as (n & Hd).
  destruct (prepare_nth _ _ _ Hd) as (this & o & _ & _ & ->).
  unfold stats_of, own_stats. cbn [derive Df.WL Df.raw Df.REST_DAYS].
  apply (removelast_last (Zc (wl_int (Raw.WL this)) :: Raw.box this)).
Qed.

Lemma nth_error_map_Some {A B} (f : A -> B) l i x :
  nth_error l i = Some x -> nth_error (map f l) i = Some (f x).
Proof. intros H. now rewrite nth_error_map, H. Qed.

(** C8, in the form that holds of the code.
    Let the seasons of both tables be contiguous in date
    order, and let a row stand at position [i] of a season in each table.
    If the tables agree on the rows of that season up to that position,
    the season averages of the two rows agree in every column but the last
    one, SEASON_AVG_REST_DAYS, whatever the later rows of the season and
    the rows of other seasons are; they agree in that column too when the
    rest days of those rows agree.  (Rest days are measured from the
    previous row of the whole table, so those of a season's first row
    depend on the season before.) *)
Theorem season_averages_depend_on_season_prefix
  (df1 df2 : list Raw.row) (k1 k2 : nat) (r1 r2 : Avg.row)
  (season : string) (i : nat) :
  seasons_contiguous (prepare df1) ->
  seasons_contiguous (prepare df2) ->
  nth_error (get_game_averages_df df1) k1 = Some r1 ->
  nth_error (get_game_averages_df df2) k2 = Some r2 ->
  option_map Df.SEASON_YEAR (nth_error (prepare df1) k1) = Some season ->
  option_map Df.SEASON_YEAR (nth_error (prepare df2) k2) = Some season ->
  position_in_season season k1 (prepare df1) = i ->
  position_in_season season k2 (prepare df2) = i ->
  firstn (S i) (map Df.raw (season_games season (prepare df1)))
  = firstn (S i) (map Df.raw (season_games season (prepare df2))) ->
  removelast (Avg.avgs r1) = removelast (Avg.avgs r2) /\
  (firstn (S i) (map Df.REST_DAYS (season_games season (prepare df1)))
   = firstn (S i) (map Df.REST_DAYS (season_games season (prepare df2))) ->
   Avg.avgs r1 = Avg.avgs r2).
Proof.
  intros Hc1 Hc2 Hr1 Hr2 Hs1 Hs2 Hp1 Hp2 Hraw.
  destruct (season_averages_when_contiguous _ _ _ Hc1 Hr1)
    as (d1 & Hd1 & _ & _ & Ha1 & _).
  destruct (season_averages_when_contiguous _ _ _ Hc2 Hr2)
    as (d2 & Hd2 & _ & _ & Ha2 & _).
  rewrite Hd1 in Hs1. rewrite Hd2 in Hs2.
  injection Hs1 as Hs1. injection Hs2 as Hs2.
  rewrite Hs1, Hp1 in Ha1. rewrite Hs2, Hp2 in Ha2.
  assert (forall df, map (@removelast Qc)
                       (map stats_of (season_games season (prepare df)))
                     = map own_stats
                         (map Df.raw (season_games season (prepare df))))
    as Hown.
  { intros df. rewrite !map_map. apply map_ext_in. intros d Hd.
    apply filter_In in Hd. destruct Hd as [Hd _].
    now apply (prepare_own_stats df). }
  split.
  - apply (nth_error_map_Some (@removelast Qc)) in Ha1, Ha2.
    rewrite season_rows_removelast, Hown, season_rows_prefix, firstn_map
      in Ha1, Ha2.
    rewrite Hraw in Ha1. congruence.
  - intros Hrest.
    assert (forall df,
              map stats_of (season_games season (prepare df))
              = map (fun p => own_stats (fst p) ++ [Zc (snd p)])
                  (combine
                     (map Df.raw (season_games season (prepare df)))
                     (map Df.REST_DAYS (season_games season (prepare df)))))
      as Hfull.
    { intros df.
      assert (forall d, In d (season_games season (prepare df)) ->
                        In d (prepare df)) as Hsub
        by (intros d Hd; now apply filter_In in Hd).
      induction (season_games season (prepare df)) as [|d l IH];
        [reflexivity|].
      simpl. f_equal.
      - assert (In d (prepare df)) as Hd by (apply Hsub; now left).
        apply In_nth_error in Hd. destruct Hd as (n & Hd).
        destruct (prepare_nth _ _ _ Hd) as (this & o & _ & _ & ->).
        reflexivity.
      - apply IH. intros; apply Hsub; now right. }
    rewrite season_rows_prefix, Hfull, firstn_map, combine_firstn
      in Ha1, Ha2.
    rewrite Hraw, Hrest in Ha1. congruence.
Qed.

(** The two example files agree on season 2019 and differ in the date of
    the last game of season 2018: the averages of the first row of season
    2019 agree in all columns but SEASON_AVG_REST_DAYS. *)
Lemma season_averages_depend_on_season_prefix_witness :
  exists r1 r2,
    nth_error (get_game_averages_df hawks_file) 1 = Some r1 /\
    nth_error (get_game_averages_df hawks_file_long_break) 1 = Some r2 /\
    removelast (Avg.avgs r1) = removelast (Avg.avgs r2).
Proof.
  eexists. eexists.
  split; [vm_compute; reflexivity|]. split; [vm_compute; reflexivity|].
  refine (proj1 (season_averages_depend_on_season_prefix
                   hawks_file hawks_file_long_break 1 1 _ _ "2019" 0
                   _ _ _ _ _ _ _ _ _));
    vm_compute; reflexivity.
Defined.

(** The same two files: the rows of season 2019 are the same in both, and
    yet the season averages of its first row differ, in the average of the
    rest days (3 against 9). *)
Lemma season_averages_depend_on_season_prefix_counterexample :
  exists r1 r2,
    nth_error (get_game_averages_df hawks_file) 1 = Some r1 /\
    nth_error (get_game_averages_df hawks_file_long_break) 1 = Some r2 /\
    map Df.raw (season_games "2019" (prepare hawks_file))
    = map Df.raw (season_games "2019" (prepare hawks_file_long_break)) /\
    Avg.GAME_ID r1 = Avg.GAME_ID r2 /\
    map this (Avg.avgs r1) = [0; 117; 3]%Q /\
    map this (Avg.avgs r2) = [0; 117; 9]%Q /\
    Avg.avgs r1 <> Avg.avgs r2.
Proof.
  eexists. eexists.
  split; [vm_compute; reflexivity|]. split; [vm_compute; reflexivity|].
  split; [vm_compute; reflexivity|]. split; [reflexivity|].
  split; [vm_compute; reflexivity|]. split; [vm_compute; reflexivity|].
  intros E. apply (f_equal (map this)) in E. vm_compute in E.
  discriminate E.
Qed.

(** * Further properties *)

(** ** The frame of season averages *)

Lemma map_fst_combine {A B C} (g : A -> C) (l1 : list A) (l2 : list B) :
  length l1 <= length l2 ->
  map (fun p => g (fst p)) (combine l1 l2) = map g l1.
Proof.
  revert l2. induction l1 as [|x l1 IH]; intros [|y l2] H; simpl in *;
    try lia; try reflexivity.
  f_equal. apply IH. lia.
Qed.

Lemma prepare_raw df : map Df.raw (prepare df) = sort_values_GAME_DATE df.
Proof.
  unfold prepare. rewrite map_map. simpl.
  rewrite (map_fst_combine (fun r => r))
    by (rewrite diff_days_length, length_map; lia).
  apply map_id.
Qed.

Lemma get_game_averages_df_rows df :
  map raw_stats (get_game_averages_df df) = map stats_of (prepare df).
Proof.
  unfold get_game_averages_df. rewrite map_map.
  apply (map_fst_combine stats_of). rewrite average_rows_length. lia.
Qed.

Lemma prepare_derive df d :
  In d (prepare df) -> exists o, d = derive (Df.raw d) o.
Proof.
  intros Hd. apply In_nth_error in Hd. destruct Hd as (n & Hd).
  destruct (prepare_nth _ _ _ Hd) as (this & o & _ & _ & ->).
  now exists o.
Qed.


Lemma get_game_averages_df_row df k r :
  nth_error (get_game_averages_df df) k = Some r ->
  exists d, nth_error (prepare df) k = Some d /\ raw_stats r = stats_of d.
Proof.
  intros Hr.
  destruct (get_game_averages_df_nth _ _ _ Hr) as (d & avg & Hd & _ & ->).
  now exists d.
Qed.

Lemma prepare_box_length df d :
  (forall a b, In a df -> In b df -> length (Raw.box a) = length (Raw.box b)) ->
  In d (prepare df) ->
  forall a, In a df -> length (Raw.box a) = length (Raw.box (Df.raw d)).
Proof.
  intros Hw Hd a Ha. apply Hw; [assumption|].
  apply (in_map Df.raw) in Hd. rewrite prepare_raw in Hd.
  unfold sort_values_GAME_DATE in Hd. now apply sort_by_In in Hd.
Qed.

(** X2. When the seasons are contiguous in date order and all rows have
    the same columns, the season average of every statistic in the row at
    index [k] is the arithmetic mean of that statistic over the rows of the
    same season from its first row to the row itself. *)
Theorem season_average_is_running_mean
  (df : list Raw.row) (k j : nat) (r : Avg.row) :
  seasons_contiguous (prepare df) ->
  (forall a b, In a df -> In b df -> length (Raw.box a) = length (Raw.box b)) ->
  nth_error (get_game_averages_df df) k = Some r ->
  j < length (raw_stats r) ->
  exists d,
    nth_error (prepare df) k = Some d /\
    let games := season_games (Df.SEASON_YEAR d) (prepare df) in
    let i := position_in_season (Df.SEASON_YEAR d) k (prepare df) in
    nth_error games i = Some d /\
    nth j (Avg.avgs r) (Zc 0)
    = column_mean j (firstn (S i) (map stats_of games)).
Proof.
  intros Hcont Hw Hr Hj.
  destruct (season_averages_when_contiguous _ _ _ Hcont Hr)
    as (d & Hd & Hrd & Hgames & _ & Hmean).
  exists d. split; [assumption|]. split; [assumption|].
  apply Hmean.
  - apply (prepare_box_length df d Hw). eapply nth_error_In. exact Hd.
  - rewrite Hrd in Hj. exact Hj.
Qed.

Lemma season_average_is_running_mean_witness :
  exists r,
    nth_error (get_game_averages_df hawks_file) 1 = Some r /\
    exists d,
      nth_error (prepare hawks_file) 1 = Some d /\
      nth_error (season_games (Df.SEASON_YEAR d) (prepare hawks_file))
        (position_in_season (Df.SEASON_YEAR d) 1 (prepare hawks_file))
      = Some d /\
      nth 1 (Avg.avgs r) (Zc 0)
      = column_mean 1
          (firstn
             (S (position_in_season (Df.SEASON_YEAR d) 1 (prepare hawks_file)))
             (map stats_of
                (season_games (Df.SEASON_YEAR d) (prepare hawks_file)))).
Proof.
  eexists. split; [vm_compute; reflexivity|].
  apply (season_average_is_running_mean hawks_file 1 1).
  - vm_compute. reflexivity.
  - intros a b Ha Hb. simpl in Ha, Hb.
    destruct Ha as [<-|[<-|[]]], Hb as [<-|[<-|[]]]; reflexivity.
  - vm_compute. reflexivity.
  - simpl. lia.
Defined.

Lemma unique_by_same (s : string) l :
  l <> [] -> (forall x, In x l -> x = s) -> unique_by String.eqb l = [s].
Proof.
  destruct l as [|x l]; [congruence|]. intros _ H. simpl.
  rewrite (H x) by now left. f_equal.
  apply filter_nil_iff. intros y Hy. apply unique_by_incl in Hy.
  rewrite (H y) by now right. now rewrite String.eqb_refl.
Qed.

Lemma single_season_frame df season :
  (forall a, In a df -> last4 (Raw.SEASON_ID a) = season) ->
  forall d, In d (prepare df) -> Df.SEASON_YEAR d = season.
Proof.
  intros Hs d Hd. destruct (prepare_derive _ _ Hd) as (o & ->). simpl.
  apply Hs. apply (in_map Df.raw) in Hd. rewrite prepare_raw in Hd.
  unfold sort_values_GAME_DATE in Hd. now apply sort_by_In in Hd.
Qed.

Lemma single_season_games season (l : list Df.row) :
  (forall d, In d l -> Df.SEASON_YEAR d = season) ->
  season_games season l = l.
Proof.
  intros H. apply filter_all. intros d Hd. apply String.eqb_eq. now apply H.
Qed.

(** A table of one season is contiguous. *)
Lemma single_season_contiguous df season :
  (forall a, In a df -> last4 (Raw.SEASON_ID a) = season) ->
  seasons_contiguous (prepare df).
Proof.
  intros Hs. pose proof (single_season_frame df season Hs) as Hall.
  unfold seasons_contiguous.
  destruct (prepare df) as [|d P] eqn:E; [reflexivity|].
  rewrite (unique_by_same season).
  - cbn [flat_map]. rewrite app_nil_r.
    apply (single_season_games season). exact Hall.
  - discriminate.
  - intros x Hx. apply in_map_iff in Hx. destruct Hx as (d' & <- & Hd').
    now apply Hall.
Qed.

(** X3. For a table of a single season whose rows have the same columns,
    the season average of every statistic in the [k]-th returned row is
    the arithmetic mean of that statistic over the returned rows 0 to
    [k]. *)
Theorem single_season_running_mean
  (df : list Raw.row) (season : string) (k j : nat) (r : Avg.row) :
  (forall a, In a df -> last4 (Raw.SEASON_ID a) = season) ->
  (forall a b, In a df -> In b df -> length (Raw.box a) = length (Raw.box b)) ->
  nth_error (get_game_averages_df df) k = Some r ->
  j < length (raw_stats r) ->
  nth j (Avg.avgs r) (Zc 0)
  = column_mean j (map raw_stats (firstn (S k) (get_game_averages_df df))).
Proof.
  intros Hs Hw Hr Hj.
  pose proof (single_season_frame df season Hs) as Hall.
  destruct (season_averages_when_contiguous _ _ _
              (single_season_contiguous df season Hs) Hr)
    as (d & Hd & Hrd & _ & _ & Hmean).
  rewrite <- firstn_map, get_game_averages_df_rows.
  assert (In d (prepare df)) as Hin by (eapply nth_error_In; exact Hd).
  specialize (Hmean j (prepare_box_length df d Hw Hin)).
  rewrite Hrd in Hj. specialize (Hmean Hj).
  rewrite (Hall d Hin) in Hmean.
  rewrite (single_season_games season (prepare df) Hall) in Hmean.
  unfold position_in_season in Hmean.
  rewrite (single_season_games season) in Hmean
    by (intros e He; apply Hall; now apply firstn_In in He).
  rewrite length_firstn in Hmean.
  assert (k < length (prepare df)) as Hk
    by (apply nth_error_Some; congruence).
  now replace (Nat.min k (length (prepare df))) with k in Hmean by lia.
Qed.

Lemma single_season_running_mean_witness :
  exists r,
    nth_error (get_game_averages_df one_season_file) 2 = Some r /\
    nth 1 (Avg.avgs r) (Zc 0)
    = column_mean 1
        (map raw_stats (firstn 3 (get_game_averages_df one_season_file))) /\
    nth 1 (Avg.avgs r) (Zc 0) = Zc 100.
Proof.
  eexists. split; [vm_compute; reflexivity|]. split.
  - apply (single_season_running_mean one_season_file "2019" 2 1).
    + intros a Ha. simpl in Ha. destruct Ha as [<-|[<-|[<-|[]]]]; reflexivity.
    + intros a b Ha Hb. simpl in Ha, Hb.
      destruct Ha as [<-|[<-|[<-|[]]]], Hb as [<-|[<-|[<-|[]]]]; reflexivity.
    + vm_compute. reflexivity.
    + simpl. lia.
  - apply Qc_is_canon. vm_compute. reflexivity.
Defined.

(** X4. When the seasons are contiguous in date order, the first row of
    every season carries its own raw statistics as its season averages. *)
Theorem first_row_of_a_season_keeps_its_values
  (df : list Raw.row) (k : nat) (r : Avg.row) :
  seasons_contiguous (prepare df) ->
  nth_error (get_game_averages_df df) k = Some r ->
  option_map (fun d => position_in_season (Df.SEASON_YEAR d) k (prepare df))
             (nth_error (prepare df) k) = Some 0 ->
  Avg.avgs r = raw_stats r.
Proof.
  intros Hcont Hr Hpos.
  destruct (season_averages_when_contiguous _ _ _ Hcont Hr)
    as (d & Hd & Hrd & Hgames & Havg & _).
  rewrite Hd in Hpos. simpl in Hpos. injection Hpos as Hpos.
  rewrite Hpos in Hgames, Havg.
  destruct (get_game_averages_df_row _ _ _ Hr) as (d' & Hd' & ->).
  assert (d' = d) by congruence. subst d'.
  destruct (season_games (Df.SEASON_YEAR d) (prepare df)) as [|first t];
    [discriminate|].
  simpl in Hgames, Havg. congruence.
Qed.

Lemma first_row_of_a_season_keeps_its_values_witness :
  exists r,
    nth_error (get_game_averages_df hawks_file) 1 = Some r /\
    Avg.GAME_ID r = "0021900001" /\
    Avg.avgs r = raw_stats r.
Proof.
  eexists. split; [vm_compute; reflexivity|]. split; [reflexivity|].
  apply (first_row_of_a_season_keeps_its_values hawks_file 1);
    vm_compute; reflexivity.
Defined.

(** ** The averaged columns *)



(** ** The ledger of analyzed games, continued *)

(** X6. The order in which the set of new games is iterated only changes
    the order of the appended rows: two runs from the same ledger give the
    same ledger followed by the same new rows, up to a permutation. *)
Theorem update_player_df_order_irrelevant
  (order1 order2 : list string -> list string)
  (player_df : PlayerFrame) (analyzed : list Ledger.row) :
  (forall l, Permutation (order1 l) l) ->
  (forall l, Permutation (order2 l) l) ->
  exists new1 new2,
    update_player_df order1 player_df analyzed = analyzed ++ new1 /\
    update_player_df order2 player_df analyzed = analyzed ++ new2 /\
    Permutation new1 new2.
Proof.
  intros H1 H2. do 2 eexists. split; [reflexivity|]. split; [reflexivity|].
  apply Permutation_flat_map.
  rewrite H1. symmetry. apply H2.
Qed.

Lemma update_player_df_order_irrelevant_witness :
  Permutation
    (update_player_df (@rev string) example_player_df [])
    (update_player_df (fun l => l) example_player_df []).
Proof.
  destruct (update_player_df_order_irrelevant (@rev string) (fun l => l)
              example_player_df [])
    as (new1 & new2 & -> & -> & Hperm).
  - intros l. symmetry. apply Permutation_rev.
  - reflexivity.
  - exact Hperm.
Defined.

Lemma get_game_averages_df_flag df r :
  In r (get_game_averages_df df) ->
  Avg.HOME_GAME r = 1%Z \/ Avg.HOME_GAME r = 0%Z.
Proof.
  intros Hr. apply In_nth_error in Hr. destruct Hr as (k & Hr).
  destruct (get_game_averages_df_nth _ _ _ Hr) as (d & avg & Hd & _ & ->).
  apply nth_error_In in Hd. destruct (prepare_derive _ _ Hd) as (o & ->).
  simpl. unfold home_game. destruct (contains_at _); auto.
Qed.

(** Every game of the player table has a row in the ledger after the
    update, when every player row is a home or an away row. *)
Lemma update_player_df_covers
  (set_order : list string -> list string)
  (player_df : PlayerFrame) (analyzed : list Ledger.row) (r : Avg.row) :
  (forall l, Permutation (set_order l) l) ->
  In r (pf_rows player_df) ->
  Avg.HOME_GAME r = 1%Z \/ Avg.HOME_GAME r = 0%Z ->
  exists n,
    In n (update_player_df set_order player_df analyzed) /\
    Ledger.GAME_ID n = Avg.GAME_ID r /\
    (In n analyzed \/ Ledger.HOME_GAME n = Avg.HOME_GAME r).
Proof.
  intros Hperm Hr Hflag. unfold update_player_df.
  destruct (in_dec string_dec (Avg.GAME_ID r) (map Ledger.GAME_ID analyzed))
    as [Hold|Hnew].
  - apply in_map_iff in Hold. destruct Hold as (n & Hn & Hin).
    exists n. rewrite in_app_iff. auto.
  - assert (In (Avg.GAME_ID r) (set_order (new_game_ids player_df analyzed)))
      as Hg.
    { apply (Permutation_in _ (Permutation_sym (Hperm _))).
      apply new_game_ids_In. split; [now apply in_map | assumption]. }
    set (ncols := length (dist_stats_cols (pf_columns player_df))).
    set (game_df := List.filter
                      (fun r' => String.eqb (Avg.GAME_ID r') (Avg.GAME_ID r))
                      (pf_rows player_df)).
    assert (In r game_df) as Hgame
      by (apply filter_In; split; [assumption | apply String.eqb_refl]).
    assert (forall flag, Avg.HOME_GAME r = flag ->
              exists n,
                In n (team_rows ncols
                        (List.filter (fun r' => Z.eqb (Avg.HOME_GAME r') flag)
                                     game_df)) /\
                Ledger.HOME_GAME n = flag) as Hside.
    { intros flag Hf.
      assert (In r (List.filter (fun r' => Z.eqb (Avg.HOME_GAME r') flag)
                                game_df)) as Hin
        by (apply filter_In; split; [assumption | now apply Z.eqb_eq]).
      destruct (List.filter (fun r' => Z.eqb (Avg.HOME_GAME r') flag) game_df)
        as [|r0 side] eqn:E; [destruct Hin|].
      assert (In r0 (r0 :: side)) as H0 by now left.
      rewrite <- E in H0. apply filter_In in H0. destruct H0 as [_ H0].
      apply Z.eqb_eq in H0.
      unfold team_rows. simpl. eexists. split; [left; reflexivity|].
      exact H0. }
    assert (exists n, In n (game_rows player_df (Avg.GAME_ID r)) /\
                      Ledger.HOME_GAME n = Avg.HOME_GAME r) as (n & Hn & Hh).
    { unfold game_rows. fold ncols. fold game_df. simpl.
      destruct Hflag as [H1|H0].
      - destruct (Hside 1%Z H1) as (n & Hn & Hh). exists n.
        split; [apply in_or_app; now left | congruence].
      - destruct (Hside 0%Z H0) as (n & Hn & Hh). exists n.
        split; [|congruence].
        apply in_or_app. right. apply in_or_app. now left. }
    exists n. split; [|split].
    + apply in_or_app. right. apply in_flat_map.
      now exists (Avg.GAME_ID r).
    + now apply game_rows_GAME_ID in Hn.
    + now right.
Qed.

(** X7. After the update, every game of the player table has a row in
    the ledger for a side on which it has a player, as long as the player
    table comes from [get_game_averages_df]; and every row of the new
    ledger is a row of the old one or belongs to a game of the player
    table that the old ledger did not have. *)
Theorem ledger_covers_the_player_table
  (set_order : list string -> list string)
  (columns : list string) (files : list (list Raw.row))
  (analyzed : list Ledger.row) :
  (forall l, Permutation (set_order l) l) ->
  let player_df :=
    {| pf_columns := columns;
       pf_rows := flat_map get_game_averages_df files |} in
  let ledger := update_player_df set_order player_df analyzed in
  (forall r, In r (pf_rows player_df) ->
     exists n, In n ledger /\ Ledger.GAME_ID n = Avg.GAME_ID r /\
               (In n analyzed \/ Ledger.HOME_GAME n = Avg.HOME_GAME r)) /\
  (forall n, In n ledger ->
     In n analyzed \/
     (In (Ledger.GAME_ID n) (map Avg.GAME_ID (pf_rows player_df)) /\
      ~ In (Ledger.GAME_ID n) (map Ledger.GAME_ID analyzed))).
Proof.
  intros Hperm player_df ledger. split.
  - intros r Hr. apply update_player_df_covers; try assumption.
    simpl in Hr. apply in_flat_map in Hr. destruct Hr as (f & _ & Hr).
    now apply (get_game_averages_df_flag f).
  - intros n Hn. unfold ledger, update_player_df in Hn.
    apply in_app_or in Hn. destruct Hn as [Hn|Hn]; [now left|right].
    apply in_flat_map in Hn. destruct Hn as (g & Hg & Hn).
    apply game_rows_GAME_ID in Hn. subst g.
    apply (Permutation_in _ (Hperm _)) in Hg.
    now apply new_game_ids_In in Hg.
Qed.

Lemma ledger_covers_the_player_table_witness :
  exists r,
    hd_error (pf_rows example_player_df) = Some r /\
    exists n, In n example_ledger /\ Ledger.GAME_ID n = Avg.GAME_ID r /\
              (In n [] \/ Ledger.HOME_GAME n = Avg.HOME_GAME r).
Proof.
  assert (exists r, hd_error (pf_rows example_player_df) = Some r) as [r Hr]
    by (vm_compute; eexists; reflexivity).
  exists r. split; [exact Hr|].
  apply (ledger_covers_the_player_table (@rev string)
           (pf_columns example_player_df) player_files []).
  - intros l. symmetry. apply Permutation_rev.
  - change (In r (pf_rows example_player_df)).
    destruct (pf_rows example_player_df); [discriminate|].
    injection Hr as ->. now left.
Defined.

(** X8. Running the update a second time on a player table that comes
    from [get_game_averages_df] changes nothing, whatever the two
    iteration orders are. *)
Theorem second_update_changes_nothing
  (order1 order2 : list string -> list string)
  (columns : list string) (files : list (list Raw.row))
  (analyzed : list Ledger.row) :
  (forall l, Permutation (order1 l) l) ->
  (forall l, Permutation (order2 l) l) ->
  let player_df :=
    {| pf_columns := columns;
       pf_rows := flat_map get_game_averages_df files |} in
  update_player_df order2 player_df
    (update_player_df order1 player_df analyzed)
  = update_player_df order1 player_df analyzed.
Proof.
  intros H1 H2 player_df. apply update_player_df_twice; try assumption.
  intros r Hr. simpl in Hr. apply in_flat_map in Hr.
  destruct Hr as (f & _ & Hr). now apply (get_game_averages_df_flag f).
Qed.

Lemma second_update_changes_nothing_witness :
  update_player_df (fun l => l) example_player_df example_ledger
  = example_ledger.
Proof.
  apply (second_update_changes_nothing (@rev string) (fun l => l)
           (pf_columns example_player_df) player_files []).
  - intros l. symmetry. apply Permutation_rev.
  - reflexivity.
Defined.

Lemma quantile_single (q x : Qc) : quantile q [x] = x.
Proof.
  unfold quantile. cbn [length sort_by insert_by].
  change (Z.of_nat 1 - 1)%Z with 0%Z.
  replace (q * Zc 0)%Qc with (Zc 0)
    by (change (Zc 0) with (Q2Qc 0); ring).
  change (Qfloor (Zc 0)) with 0%Z.
  change (Z.to_nat 0) with 0. change (Nat.min (0 + 1) (1 - 1)) with 0.
  cbn [nth]. change (Zc 0) with (Q2Qc 0). ring.
Qed.

Lemma describe_single (x : Qc) : describe [x] = repeat x 6.
Proof.
  unfold describe. rewrite !quantile_single. simpl. f_equal.
  unfold mean, Qc_sum. simpl.
  change (Zc 0) with (Q2Qc 0). change (Zc (Z.of_nat 1)) with (Q2Qc 1).
  field. discriminate.
Qed.

(** X9. A side with a single player gets one ledger row, in which the
    mean, the minimum, the three quartiles and the maximum of every
    statistic all equal that player's value. *)
Theorem single_player_side (ncols : nat) (r : Avg.row) :
  team_rows ncols [r]
  = [ {| Ledger.GAME_ID := Avg.GAME_ID r;
         Ledger.HOME_GAME := Avg.HOME_GAME r;
         Ledger.WL := Avg.WL r;
         Ledger.dist :=
           flat_map (fun j => repeat (nth j (player_stats r) (Zc 0)) 6)
                    (seq 0 ncols) |} ].
Proof.
  unfold team_rows, dist_values. simpl. do 2 f_equal.
  apply flat_map_ext. intros j. unfold column. simpl.
  apply describe_single.
Qed.

(** ** The label of a merged row *)

Lemma string_lt_trans a b c :
  String.compare a b = Lt -> String.compare b c = Lt ->
  String.compare a c = Lt.
Proof.
  intros H1 H2.
  apply OrderedTypeEx.String_as_OT.cmp_lt.
  apply OrderedTypeEx.String_as_OT.cmp_lt in H1, H2.
  eapply OrderedTypeEx.String_as_OT.lt_trans; eassumption.
Qed.

Lemma string_compare_refl a : String.compare a a = Eq.
Proof.
  pose proof (String.compare_antisym a a) as H.
  destruct (String.compare a a); [reflexivity | discriminate | discriminate].
Qed.

Lemma string_leb_trans a b c :
  String.leb a b = true -> String.leb b c = true -> String.leb a c = true.
Proof.
  unfold String.leb.
  destruct (String.compare a b) eqn:E1; try discriminate;
    destruct (String.compare b c) eqn:E2; try discriminate; intros _ _.
  - apply String.compare_eq_iff in E1, E2. subst.
    now rewrite string_compare_refl.
  - apply String.compare_eq_iff in E1. subst. now rewrite E2.
  - apply String.compare_eq_iff in E2. subst. now rewrite E1.
  - now rewrite (string_lt_trans a b c).
Qed.

Lemma team_game_leb_trans a b c :
  team_game_leb a b = true -> team_game_leb b c = true ->
  team_game_leb a c = true.
Proof.
  unfold team_game_leb.
  destruct (String.compare (TEAM_ID a) (TEAM_ID b)) eqn:E1;
    try discriminate;
    destruct (String.compare (TEAM_ID b) (TEAM_ID c)) eqn:E2;
    try discriminate.
  - apply String.compare_eq_iff in E1, E2. rewrite E1, E2.
    rewrite string_compare_refl. apply string_leb_trans.
  - apply String.compare_eq_iff in E1. rewrite E1, E2. reflexivity.
  - apply String.compare_eq_iff in E2. rewrite <- E2, E1. reflexivity.
  - rewrite (string_lt_trans _ _ _ E1 E2). reflexivity.
Qed.

Lemma team_game_leb_refl a : team_game_leb a a = true.
Proof.
  unfold team_game_leb, String.leb. now rewrite !string_compare_refl.
Qed.

Lemma strongly_sorted_by_team_then_game (df : list Feat.row) :
  StronglySorted (fun a b => team_game_leb a b = true)
                 (sort_by team_game_leb df).
Proof.
  apply Sorted_StronglySorted; [|apply sorted_by_team_then_game].
  intros a b c. apply team_game_leb_trans.
Qed.

Lemma strongly_sorted_split {A} (R : A -> A -> Prop) l1 x l2 :
  StronglySorted R (l1 ++ x :: l2) ->
  Forall (fun m => R m x) l1 /\ Forall (R x) l2 /\ StronglySorted R l2.
Proof.
  induction l1 as [|y l1 IH]; simpl; intros H.
  - inversion H; subst. auto.
  - inversion H as [|? ? Hs Hall]; subst.
    destruct (IH Hs) as (H1 & H2 & H3). split; [|auto].
    constructor; [|assumption].
    rewrite List.Forall_forall in Hall. apply Hall, in_elt.
Qed.

Lemma next_in_group_split team_id following n :
  next_in_group team_id following = Some n ->
  exists mid rest,
    following = mid ++ n :: rest /\ TEAM_ID n = team_id /\
    forall m, In m mid -> TEAM_ID m <> team_id.
Proof.
  induction following as [|r t IH]; simpl; [discriminate|].
  destruct (String.eqb (TEAM_ID r) team_id) eqn:E.
  - intros [= ->]. apply String.eqb_eq in E.
    exists [], t. simpl. repeat split; auto.
  - intros H. destruct (IH H) as (mid & rest & -> & Hn & Hmid).
    exists (r :: mid), rest. repeat split; auto.
    intros m [<-|Hm]; [now apply String.eqb_neq | now apply Hmid].
Qed.

Lemma same_team_leb a b :
  TEAM_ID a = TEAM_ID b -> team_game_leb a b = true ->
  String.leb (GAME_ID a) (GAME_ID b) = true.
Proof.
  unfold team_game_leb. intros ->.
  now rewrite string_compare_refl.
Qed.

(** X10. When a merged row has a label, the label is the outcome of a row
    of the home row's team whose game identifier is not below that of the
    home row, and no other row of that team lies between the two in the
    order of game identifiers: every row of the team is at or below the
    home row or at or above the labelling row. *)
Theorem label_comes_from_the_next_game
  (team_df : list Avg.row) (player_df : list Ledger.row)
  (row : Merged.row) (label : Z) :
  In row (clean_and_merge_dfs team_df player_df) ->
  Merged.WL_PRED_HOME row = Some label ->
  let sorted :=
    sort_by team_game_leb
            (merge_players (complete_games team_df) player_df) in
  exists h a n,
    In (h, a) (merge_home_away team_df player_df) /\
    row = drop_columns (h, a) /\
    In n sorted /\
    TEAM_ID n = TEAM_ID (Shifted.cur h) /\
    Avg.WL (Feat.team n) = label /\
    Shifted.GAME_ID_JOIN h = Some (GAME_ID n) /\
    String.leb (GAME_ID (Shifted.cur h)) (GAME_ID n) = true /\
    forall m, In m sorted -> TEAM_ID m = TEAM_ID (Shifted.cur h) ->
      String.leb (GAME_ID m) (GAME_ID (Shifted.cur h)) = true \/
      String.leb (GAME_ID n) (GAME_ID m) = true.
Proof.
  intros Hrow Hlabel sorted. unfold clean_and_merge_dfs in Hrow.
  apply in_map_iff in Hrow. destruct Hrow as ([h a] & <- & Hin).
  destruct (merge_home_away_In _ _ _ _ Hin) as (Hh & _).
  destruct (shift_next_In _ _ Hh) as (pre & post & Hsplit & Hjoin & _ & Hwl).
  fold sorted in Hsplit. simpl in Hlabel. rewrite Hwl in Hlabel.
  destruct (next_in_group (TEAM_ID (Shifted.cur h)) post) as [n|] eqn:Hnext;
    [|discriminate].
  simpl in Hlabel, Hjoin. injection Hlabel as Hlabel.
  destruct (next_in_group_split _ _ _ Hnext) as (mid & rest & Hpost & Hn & Hmid).
  pose proof (strongly_sorted_by_team_then_game
                (merge_players (complete_games team_df) player_df)) as Hs.
  fold sorted in Hs. rewrite Hsplit in Hs.
  destruct (strongly_sorted_split _ _ _ _ Hs) as (Hpre & Hafter & Hs2).
  rewrite Hpost in Hs2, Hafter.
  destruct (strongly_sorted_split _ _ _ _ Hs2) as (_ & Hrest & _).
  rewrite List.Forall_forall in Hpre, Hafter, Hrest.
  exists h, a, n. repeat split; try assumption.
  - rewrite Hsplit, Hpost. apply in_or_app. right. right. apply in_elt.
  - apply same_team_leb; [congruence|]. apply Hafter, in_elt.
  - intros m Hm Hteam. rewrite Hsplit, Hpost in Hm.
    apply in_app_or in Hm. destruct Hm as [Hm|[<-|Hm]].
    + left. apply same_team_leb; [assumption | now apply Hpre].
    + left. apply same_team_leb; [reflexivity|].
      apply team_game_leb_refl.
    + apply in_app_or in Hm. destruct Hm as [Hm|[<-|Hm]].
      * exfalso. now apply (Hmid m).
      * right. apply same_team_leb; [reflexivity|].
        apply team_game_leb_refl.
      * right. apply same_team_leb; [congruence | now apply Hrest].
Qed.

Lemma label_comes_from_the_next_game_witness :
  exists row h a n,
    In row (clean_and_merge_dfs example_team_df example_analyzed) /\
    Merged.WL_PRED_HOME row = Some 0%Z /\
    In (h, a) (merge_home_away example_team_df example_analyzed) /\
    row = drop_columns (h, a) /\
    Shifted.GAME_ID_JOIN h = Some (GAME_ID n) /\
    String.leb (GAME_ID (Shifted.cur h)) (GAME_ID n) = true.
Proof.
  destruct (clean_and_merge_dfs example_team_df example_analyzed)
    as [|row rest] eqn:E; [vm_compute in E; discriminate E|].
  assert (Merged.WL_PRED_HOME row = Some 0%Z) as Hlabel.
  { assert (map Merged.WL_PRED_HOME
              (clean_and_merge_dfs example_team_df example_analyzed)
            = map Merged.WL_PRED_HOME (row :: rest)) as H by now rewrite E.
    vm_compute in H. now injection H. }
  destruct (label_comes_from_the_next_game example_team_df example_analyzed
              row 0%Z)
    as (h & a & n & Hin & Hrow & _ & _ & _ & Hjoin & Hleb & _).
  - rewrite E. now left.
  - exact Hlabel.
  - exists row, h, a, n. repeat split; try assumption. now left.
Defined.

(** ** The data feed: team tables and known games *)

Lemma listdir_spec (dir : string) (fs : Files) :
  exists l,
    listdir dir fs = (Returned l, fs) /\
    forall name table,
      In (name, table) l <-> fs !! (dir, name) = Some table.
Proof.
  eexists. split; [reflexivity|]. intros name table.
  rewrite in_map_iff. split.
  - intros ([[d n] t] & [= <- <-] & H). apply filter_In in H.
    destruct H as [H E]. simpl in E. apply String.eqb_eq in E. subst d.
    apply list_elem_of_In in H. now apply elem_of_map_to_list in H.
  - intros H. exists ((dir, name), table). split; [reflexivity|].
    apply filter_In. split; [|apply String.eqb_refl].
    apply list_elem_of_In. now apply elem_of_map_to_list.
Qed.




Lemma get_team_games_nil api team_id :
  get_team_games api team_id = [] <-> league_game_finder api team_id = [].
Proof.
  unfold get_team_games, sort_values_GAME_DATE.
  rewrite <- !length_zero_iff_nil, sort_by_length. reflexivity.
Qed.

Lemma for_each_app {A} (body : A -> IO unit) l1 l2 fs :
  for_each body (l1 ++ l2) fs
  = match for_each body l1 fs with
    | (Returned _, fs') => for_each body l2 fs'
    | (Raised e, fs') => (Raised e, fs')
    end.
Proof.
  revert fs. induction l1 as [|x l1 IH]; intros fs; simpl; [reflexivity|].
  unfold mbind, IO_bind. destruct (body x fs) as [[[]|e] fs']; [|reflexivity].
  apply IH.
Qed.

Lemma store_team_games_returns self api team_id fs :
  league_game_finder api team_id <> [] ->
  fst (store_team_games self api team_id fs) = Returned tt.
Proof.
  intros H. unfold store_team_games.
  destruct (get_team_games api team_id) eqn:E.
  - apply get_team_games_nil in E. contradiction.
  - reflexivity.
Qed.

(** X12. [get_all_team_games] stops with IndexError at the first team for
    which the API reports no game: the tables of the teams before it are
    written as in a run over those teams alone, and no team after it is
    processed. *)
Theorem team_without_games_stops_the_loop
  (self : NBADataFeed) (api : Remote) (fs : Files)
  (before after : list string) (team_id : string) :
  get_teams api = before ++ team_id :: after ->
  (forall t, In t before -> league_game_finder api t <> []) ->
  league_game_finder api team_id = [] ->
  let earlier :=
    {| get_teams := before; league_game_finder := league_game_finder api |} in
  fst (get_all_team_games self earlier fs) = Returned tt /\
  get_all_team_games self api fs
  = (Raised IndexError, snd (get_all_team_games self earlier fs)).
Proof.
  intros Hteams Hbefore Hnone earlier.
  unfold get_all_team_games. rewrite Hteams. simpl get_teams.
  assert (forall fs0, fst (for_each (store_team_games self earlier) before fs0)
                      = Returned tt) as Hok.
  { clear Hteams. induction before as [|t before IH]; intros fs0;
      [reflexivity|].
    simpl. unfold mbind, IO_bind.
    pose proof (store_team_games_returns self earlier t fs0) as Ht.
    destruct (store_team_games self earlier t fs0) as [[[]|e] fs1].
    - apply IH. intros; apply Hbefore; now right.
    - simpl in Ht. discriminate Ht. apply Hbefore. now left. }
  split; [apply Hok|].
  rewrite for_each_app.
  change (for_each (store_team_games self api) before fs)
    with (for_each (store_team_games self earlier) before fs).
  specialize (Hok fs).
  destruct (for_each (store_team_games self earlier) before fs)
    as [[[]|e] fs1]; [|discriminate Hok].
  simpl. unfold mbind, IO_bind, store_team_games.
  apply get_team_games_nil in Hnone. now rewrite Hnone.
Qed.

Lemma team_without_games_stops_the_loop_witness :
  get_all_team_games example_feed
    {| get_teams := ["1610612737"; "1610612738"; "1610612739"];
       league_game_finder :=
         fun t => if String.eqb t "1610612737"
                  then [hawks_game_1; hawks_game_3] else [] |}
    example_files
  = (Raised IndexError,
     snd (get_all_team_games example_feed
            {| get_teams := ["1610612737"];
               league_game_finder :=
                 fun t => if String.eqb t "1610612737"
                          then [hawks_game_1; hawks_game_3] else [] |}
            example_files)).
Proof.
  apply (team_without_games_stops_the_loop example_feed
           {| get_teams := ["1610612737"; "1610612738"; "1610612739"];
              league_game_finder :=
                fun t => if String.eqb t "1610612737"
                         then [hawks_game_1; hawks_game_3] else [] |}
           example_files ["1610612737"] ["1610612739"] "1610612738").
  - reflexivity.
  - intros t [<-|[]]. discriminate.
  - reflexivity.
Defined.

(** ** The data feed: player tables *)

Lemma vec_eqb_spec a b : vec_eqb a b = true <-> a = b.
Proof.
  split; [|intros ->; apply vec_eqb_refl].
  revert b. induction a as [|x a IH]; intros [|y b]; simpl;
    try discriminate; [reflexivity|].
  rewrite andb_true_iff. intros [Hx Hab].
  apply Qeq_bool_eq, Qc_is_canon in Hx. subst. f_equal. now apply IH.
Qed.

Lemma row_eqb_spec a b : row_eqb a b = true <-> a = b.
Proof.
  split.
  - unfold row_eqb. rewrite !andb_true_iff.
    intros [[[[[[[H1 H2] H3] H4] H5] H6] H7] H8].
    apply String.eqb_eq in H1, H2, H3, H4, H6, H7.
    apply Z.eqb_eq in H5. apply vec_eqb_spec in H8.
    destruct a, b. simpl in *. now subst.
  - intros ->. unfold row_eqb.
    now rewrite !String.eqb_refl, Z.eqb_refl, vec_eqb_refl.
Qed.

(** The table written holds every row of the frame fetched. *)
Lemma merge_write_has_rows (fs : Files) path (df : list Raw.row) :
  exists table,
    (<[path := match fs !! path with
               | Some old_df => unique_by row_eqb (old_df ++ df)
               | None => df
               end]> fs) !! path = Some table /\
    forall r, In r df -> In r table.
Proof.
  rewrite lookup_insert_eq. eexists. split; [reflexivity|].
  destruct (fs !! path); [|auto].
  intros r Hr. apply (unique_by_In _ row_eqb_spec), in_or_app. now right.
Qed.

Lemma append_length (a b : string) :
  String.length (String.append a b) = String.length a + String.length b.
Proof. induction a as [|c a IH]; simpl; [reflexivity | now rewrite IH]. Qed.

(** Two players have two files. *)
Lemma append_inj_l (s a b : string) :
  String.append a s = String.append b s -> a = b.
Proof.
  revert b. induction a as [|c a IH]; intros [|c' b] H.
  - reflexivity.
  - apply (f_equal String.length) in H. simpl in H.
    rewrite !append_length in H. simpl in H. lia.
  - apply (f_equal String.length) in H. simpl in H.
    rewrite !append_length in H. simpl in H. lia.
  - simpl in H. injection H as -> H. f_equal. now apply IH.
Qed.

Lemma store_player_games_frame self text_order api player_id fs path :
  path <> (player_games_dir self, String.append player_id ".csv") \/
  get_player_games text_order api player_id = [] ->
  snd (store_player_games self text_order api player_id fs) !! path
  = fs !! path.
Proof.
  unfold store_player_games.
  destruct (get_player_games text_order api player_id) as [|first rest].
  - reflexivity.
  - intros [Hne|Hnil]; [|discriminate].
    unfold mbind, IO_bind, read_if_exists, to_csv. simpl.
    apply lookup_insert_ne. congruence.
Qed.

Lemma store_player_games_returns self text_order api player_id fs :
  fst (store_player_games self text_order api player_id fs) = Returned tt.
Proof.
  unfold store_player_games.
  now destruct (get_player_games text_order api player_id).
Qed.

Lemma get_player_games_nil text_order api player_id :
  (forall l, Permutation (text_order l) l) ->
  get_player_games text_order api player_id = [] <->
  player_game_log api player_id = [].
Proof.
  intros Hperm. unfold get_player_games.
  assert (text_order (player_game_log api player_id) = [] <->
          player_game_log api player_id = []) as Hnil.
  { pose proof (Hperm (player_game_log api player_id)) as H.
    split; intros E.
    - rewrite E in H. now apply Permutation_nil in H.
    - rewrite E in *. now apply Permutation_sym, Permutation_nil in H. }
  destruct (log_has_player_id api player_id); [exact Hnil|].
  rewrite <- Hnil. split; [apply map_eq_nil | intros ->; reflexivity].
Qed.

(** The run changes no file but those of the players with a game. *)
Lemma get_all_player_games_writes self text_order api player_ids fs path :
  (forall l, Permutation (text_order l) l) ->
  (forall p, In p player_ids -> player_game_log api p <> [] ->
             path <> (player_games_dir self, String.append p ".csv")) ->
  snd (get_all_player_games self text_order api player_ids fs) !! path
  = fs !! path.
Proof.
  intros Hperm. unfold get_all_player_games. revert fs.
  induction player_ids as [|p ids IH]; intros fs Hpath; [reflexivity|].
  simpl. unfold mbind, IO_bind.
  pose proof (store_player_games_frame self text_order api p fs path) as Hp.
  assert (path <> (player_games_dir self, String.append p ".csv") \/
          get_player_games text_order api p = []) as Hcase.
  { destruct (get_player_games text_order api p) eqn:E; [now right|left].
    apply Hpath; [now left|].
    intros Hnil. apply (get_player_games_nil _ _ _ Hperm) in Hnil.
    congruence. }
  destruct (store_player_games self text_order api p fs) as [[[]|e] fs'];
    simpl in Hp.
  - rewrite IH by (intros; apply Hpath; [now right | assumption]).
    now apply Hp.
  - now apply Hp.
Qed.

(** X13. [get_all_player_games], run on a set of players, never raises.
    A player for whom the API reports no game is skipped: the only files
    written are the files <player_id>.csv of [player_games_dir] of the
    players with a game, and after the run each of these holds every row
    fetched for its player. *)
Theorem get_all_player_games_writes_fetched_rows
  (self : NBADataFeed) (text_order : list Raw.row -> list Raw.row)
  (api : PlayerRemote) (player_ids : list string) (fs : Files) :
  (forall l, Permutation (text_order l) l) ->
  List.NoDup player_ids ->
  let run := get_all_player_games self text_order api player_ids fs in
  fst run = Returned tt /\
  (forall path,
     (forall p, In p player_ids -> player_game_log api p <> [] ->
                path <> (player_games_dir self, String.append p ".csv")) ->
     snd run !! path = fs !! path) /\
  (forall p, In p player_ids -> player_game_log api p <> [] ->
     exists table,
       snd run !! (player_games_dir self, String.append p ".csv")
       = Some table /\
       forall r, In r (get_player_games text_order api p) -> In r table).
Proof.
  intros Hperm Hnodup run. unfold run. clear run.
  split; [|split].
  - unfold get_all_player_games. clear Hnodup. revert fs.
    induction player_ids as [|p ids IH]; intros fs; [reflexivity|].
    simpl. unfold mbind, IO_bind.
    pose proof (store_player_games_returns self text_order api p fs) as Hp.
    destruct (store_player_games self text_order api p fs) as [[[]|e] fs'];
      [apply IH | discriminate Hp].
  - intros path Hpath. now apply get_all_player_games_writes.
  - revert fs. induction Hnodup as [|q ids Hq Hids IH]; intros fs p Hin Hlog;
      [destruct Hin|].
    pose proof (store_player_games_returns self text_order api q fs) as Hret.
    pose proof (get_all_player_games_writes self text_order api ids) as Hrest.
    unfold get_all_player_games in *. simpl. unfold mbind, IO_bind.
    destruct (store_player_games self text_order api q fs) as [[[]|e] fs']
      eqn:Estep; [|discriminate Hret].
    destruct Hin as [->|Hin]; [|now apply IH].
    rewrite Hrest; [|assumption|].
    + revert Estep. unfold store_player_games.
      destruct (get_player_games text_order api p) as [|first rest] eqn:E.
      * apply (get_player_games_nil _ _ _ Hperm) in E. contradiction.
      * unfold mbind, IO_bind, read_if_exists, to_csv. simpl.
        intros [= <-]. apply merge_write_has_rows.
    + intros p' Hp' _ [= Heq]. apply append_inj_l in Heq. now subst.
Qed.

Lemma get_all_player_games_writes_fetched_rows_witness :
  snd (get_all_player_games example_feed (fun l => l) example_player_api
         ["201"; "999"] example_files)
    !! ("data/players", "999.csv")
  = example_files !! ("data/players", "999.csv") /\
  exists table,
    snd (get_all_player_games example_feed (fun l => l) example_player_api
           ["201"; "999"] example_files)
      !! ("data/players", "201.csv") = Some table /\
    forall r,
      In r (get_player_games (fun l => l) example_player_api "201") ->
      In r table.
Proof.
  destruct (get_all_player_games_writes_fetched_rows example_feed
              (fun l => l) example_player_api ["201"; "999"] example_files)
    as (_ & Hframe & Hrows).
  - reflexivity.
  - repeat constructor; simpl; intuition discriminate.
  - split.
    + apply Hframe. intros p [<-|[<-|[]]] Hlog.
      * discriminate.
      * exfalso. apply Hlog. reflexivity.
    + apply (Hrows "201"); [now left | discriminate].
Defined.

(** ** The data feed: the list of processed games *)

Lemma disk_eta (d : Disk) :
  {| csv := csv d; game_lists := game_lists d; ledgers := ledgers d |} = d.
Proof. now destruct d. Qed.












(** ** The analyzer on the disk *)

Lemma listing_In dir fs name table :
  In (name, table) (listing dir fs) <-> fs !! (dir, name) = Some table.
Proof.
  destruct (listdir_spec dir fs) as (l & Hl & Hin).
  unfold listdir in Hl. injection Hl as <-. apply Hin.
Qed.

Lemma load_unfold dir d :
  Analyzer.load dir d
  = (match map (fun f => get_game_averages_df (snd f))
               (List.filter (fun f => Analyzer.ends_with ".csv" (fst f))
                            (listing dir (csv d))) with
     | [] => Failed (TableError ValueError)
     | df :: dfs => Done (concat (df :: dfs))
     end, d).
Proof.
  unfold Analyzer.load, mbind, Script_bind, on_csv, listdir. simpl.
  rewrite disk_eta. fold (listing dir (csv d)).
  now destruct (map _ (List.filter _ (listing dir (csv d)))).
Qed.

Lemma load_rows dir d rows r :
  fst (Analyzer.load dir d) = Done rows ->
  In r rows <->
  exists name table,
    Analyzer.ends_with ".csv" name = true /\
    csv d !! (dir, name) = Some table /\
    In r (get_game_averages_df table).
Proof.
  rewrite load_unfold. cbn [fst].
  destruct (map _ (List.filter _ (listing dir (csv d)))) as [|df dfs] eqn:E;
    [discriminate|].
  intros [= <-]. change (df ++ concat dfs) with (concat (df :: dfs)).
  rewrite <- E, in_concat. split.
  - intros (l & Hl & Hr). apply in_map_iff in Hl.
    destruct Hl as ([name table] & <- & Hf). apply filter_In in Hf.
    destruct Hf as [Hf Hcsv]. apply listing_In in Hf.
    now exists name, table.
  - intros (name & table & Hcsv & Hf & Hr).
    exists (get_game_averages_df table). split; [|assumption].
    apply in_map_iff. exists (name, table). split; [reflexivity|].
    apply filter_In. split; [now apply listing_In | assumption].
Qed.




Lemma load_csv_only dir d d' :
  csv d' = csv d ->
  fst (Analyzer.load dir d') = fst (Analyzer.load dir d).
Proof. intros H. rewrite !load_unfold. cbn [fst]. now rewrite H. Qed.

Lemma run_unfold set_order self header d :
  Analyzer.run set_order self header d
  = match fst (Analyzer.load (Analyzer.team_games_dir self) d) with
    | Failed e => (Failed e, d)
    | Done team_df =>
        match fst (Analyzer.load (Analyzer.player_games_dir self) d) with
        | Failed e => (Failed e, d)
        | Done player_df =>
            match ledgers d !! Analyzer.analyzed_games_path self with
            | None => (Failed FileNotFoundError, d)
            | Some analyzed =>
                let df :=
                  update_player_df set_order
                    {| pf_columns := keep_cols false true header;
                       pf_rows := player_df |}
                    analyzed in
                (Done (clean_and_merge_dfs team_df df),
                 {| csv := csv d; game_lists := game_lists d;
                    ledgers :=
                      <[Analyzer.analyzed_games_path self := df]>
                        (ledgers d) |})
            end
        end
    end.
Proof.
  unfold Analyzer.run, Analyzer.load_and_get_averages, mbind, Script_bind.
  rewrite (load_unfold (Analyzer.team_games_dir self)). cbn [fst].
  destruct (map _ (List.filter _ (listing (Analyzer.team_games_dir self) _)));
    [reflexivity|].
  rewrite (load_unfold (Analyzer.player_games_dir self)). cbn [fst].
  destruct (map _ (List.filter _
                     (listing (Analyzer.player_games_dir self) _)));
    [reflexivity|].
  unfold Analyzer.update_player_df_file, Analyzer.read_ledger,
    Analyzer.write_ledger, mbind, Script_bind, mret, Script_ret.
  now destruct (ledgers d !! Analyzer.analyzed_games_path self).
Qed.

(** X18. Running the analyzer a second time changes nothing: after a run
    that succeeded, a second run on the disk it left returns the same
    merged table and leaves the disk as it is, whatever the order in which
    the sets of new games are iterated. *)
Theorem analyzer_run_twice
  (order1 order2 : list string -> list string)
  (self : Analyzer.NBAAnalyzer) (header : list string)
  (d d1 : Disk) (merged : list Merged.row) :
  (forall l, Permutation (order1 l) l) ->
  (forall l, Permutation (order2 l) l) ->
  Analyzer.run order1 self header d = (Done merged, d1) ->
  Analyzer.run order2 self header d1 = (Done merged, d1).
Proof.
  intros Hp1 Hp2 Hrun. rewrite run_unfold in Hrun.
  destruct (fst (Analyzer.load (Analyzer.team_games_dir self) d))
    as [team_df|] eqn:Et; [|discriminate].
  destruct (fst (Analyzer.load (Analyzer.player_games_dir self) d))
    as [player_df|] eqn:Ep; [|discriminate].
  destruct (ledgers d !! Analyzer.analyzed_games_path self)
    as [analyzed|] eqn:El; [|discriminate].
  cbv zeta in Hrun. injection Hrun as Hm Hd.
  assert (csv d1 = csv d) as Hcsv by now subst d1.
  rewrite run_unfold, (load_csv_only _ d d1 Hcsv), Et,
    (load_csv_only _ d d1 Hcsv), Ep.
  assert (forall r, In r player_df ->
                    Avg.HOME_GAME r = 1%Z \/ Avg.HOME_GAME r = 0%Z) as Hflag.
  { intros r Hr. apply (load_rows _ _ _ r Ep) in Hr.
    destruct Hr as (name & table & _ & _ & Hr).
    now apply get_game_averages_df_flag in Hr. }
  rewrite <- Hd at 1. cbn [ledgers]. rewrite lookup_insert_eq. cbv zeta.
  rewrite update_player_df_twice by assumption.
  rewrite Hm. f_equal. rewrite <- Hd at 3. rewrite <- Hd. cbn.
  now rewrite insert_insert_eq.
Qed.

Lemma analyzer_run_twice_witness :
  exists merged d1,
    Analyzer.run (fun l => l) example_analyzer roster_header example_disk
    = (Done merged, d1) /\
    Analyzer.run (@rev string) example_analyzer roster_header d1
    = (Done merged, d1).
Proof.
  eexists. eexists. split; [vm_compute; reflexivity|].
  apply (analyzer_run_twice (fun l => l) (@rev string) example_analyzer
           roster_header example_disk).
  - intros l. apply Permutation_refl.
  - intros l. apply Permutation_sym, Permutation_rev.
  - vm_compute; reflexivity.
Defined.


